(** * contract-processor: the job pipeline, its providers and its HTTP surface

    A shallow embedding of the TypeScript sources
      - src/services/processor.service.ts   (ProcessorService)
      - src/services/pdf.service.ts         (PDFService)
      - src/services/ai.service.ts          (AIService, demo mode)
      - src/services/confluence.service.ts  (ConfluenceService)
      - src/types/contract.types.ts         (ContractDataSchema, ProcessingJob)
      - src/routes/contract.routes.ts       (the three routes)
      - src/middleware/error.middleware.ts and src/index.ts (error handlers)
    followed by the properties of the specification that are settled on it.

    Conventions.
      - A JavaScript string is the list of its UTF-16 code units.
      - A Buffer is a list of bytes.
      - A promise that has settled is a value of [Settled]; a thrown value is
        either an [Error] object, of which only the message is observed, or
        something else.
      - An [async] function runs synchronously up to its first [await]; the
        code between two [await]s is one atomic step of the event loop. *)

From Stdlib Require Import ZArith Lia.
From Stdlib.Strings Require Import Byte.
From stdpp Require Import base option list strings.

Local Open Scope Z_scope.
Set Warnings "-register-all".

(** ** JavaScript values used by the sources *)

Module JS.

(** UTF-16 code units. *)
Definition jsstring := list Z.

(** An ASCII literal of the source as a JavaScript string. *)
Definition js (s : string) : jsstring :=
  (fun a => Z.of_N (Ascii.N_of_ascii a)) <$> String.list_ascii_of_string s.

Definition Date := Z.

Inductive Thrown :=
| JsError (message : jsstring)      (* [error instanceof Error] *)
| JsOther.                          (* any other thrown value *)

Inductive Settled (A : Type) :=
| Fulfilled (a : A)
| Rejected (e : Thrown).
Arguments Fulfilled {A} a.
Arguments Rejected {A} e.

(** [try { ... } catch (error) { ... }] and sequencing of settled results. *)
Definition bind {A B} (r : Settled A) (k : A -> Settled B) : Settled B :=
  match r with
  | Fulfilled a => k a
  | Rejected e => Rejected e
  end.

Definition tryCatch {A} (body : Settled A) (handler : Thrown -> Settled A)
  : Settled A :=
  match body with
  | Fulfilled a => Fulfilled a
  | Rejected e => handler e
  end.

(** [error instanceof Error ? error.message : 'Unknown error'] *)
Definition messageOf (e : Thrown) : jsstring :=
  match e with
  | JsError m => m
  | JsOther => js "Unknown error"
  end.

Definition str_eqb (a b : jsstring) : bool := bool_decide (a = b).

(** [a || b] on an optional string: [undefined] and the empty string are
    falsy. *)
Definition or_else (a : option jsstring) (b : jsstring) : jsstring :=
  match a with
  | Some (c :: r) => c :: r
  | _ => b
  end.

(** [if (s)] on an optional string. *)
Definition truthy (a : option jsstring) : bool :=
  match a with
  | Some (_ :: _) => true
  | _ => false
  end.

(** [s.substring(start, end)]: the arguments are swapped when start > end
    and clamped to the length. *)
Definition substring (s : jsstring) (start end_ : nat) : jsstring :=
  let a := Nat.min start end_ in
  let b := Nat.max start end_ in
  take (b - a)%nat (drop a s).

(** [s.split(sep)] for a one-unit separator. *)
Fixpoint split (sep : Z) (s : jsstring) : list jsstring :=
  match s with
  | [] => [[]]
  | c :: r =>
      if c =? sep then [] :: split sep r
      else match split sep r with
           | h :: t => (c :: h) :: t
           | [] => [[c]]
           end
  end.

(** WhiteSpace and LineTerminator code units, as [String.prototype.trim]
    removes them. *)
Definition isWhiteSpace (c : Z) : bool :=
  ((9 <=? c) && (c <=? 13)) || (c =? 32) || (c =? 160) || (c =? 5760)
  || ((8192 <=? c) && (c <=? 8202)) || (c =? 8232) || (c =? 8233)
  || (c =? 8239) || (c =? 8287) || (c =? 12288) || (c =? 65279).

Fixpoint trimStart (s : jsstring) : jsstring :=
  match s with
  | c :: r => if isWhiteSpace c then trimStart r else s
  | [] => []
  end.

Definition trim (s : jsstring) : jsstring :=
  reverse (trimStart (reverse (trimStart s))).

(** [s.includes(sub)] *)
Fixpoint startsWith (sub s : jsstring) : bool :=
  match sub, s with
  | [], _ => true
  | a :: sub', b :: s' => (a =? b) && startsWith sub' s'
  | _ :: _, [] => false
  end.

Fixpoint includes (s sub : jsstring) : bool :=
  startsWith sub s ||
  match s with
  | [] => false
  | _ :: r => includes r sub
  end.

(** *** encodeURIComponent *)

(** uriUnescaped: alphanumerics and [- _ . ! ~ * ' ( )]. *)
Definition uriUnescaped (c : Z) : bool :=
  ((48 <=? c) && (c <=? 57)) || ((65 <=? c) && (c <=? 90))
  || ((97 <=? c) && (c <=? 122))
  || (c =? 45) || (c =? 95) || (c =? 46) || (c =? 33) || (c =? 126)
  || (c =? 42) || (c =? 39) || (c =? 40) || (c =? 41).

Definition hexDigit (d : Z) : Z :=
  if d <? 10 then 48 + d else 65 + (d - 10).

(** ["%" + two upper-case hexadecimal digits] *)
Definition percent (octet : Z) : jsstring :=
  [37; hexDigit (octet / 16); hexDigit (octet mod 16)].

(** The UTF-8 octets of a code point. *)
Definition utf8Octets (cp : Z) : list Z :=
  if cp <? 128 then [cp]
  else if cp <? 2048 then [192 + cp / 64; 128 + cp mod 64]
  else if cp <? 65536 then
    [224 + cp / 4096; 128 + (cp / 64) mod 64; 128 + cp mod 64]
  else
    [240 + cp / 262144; 128 + (cp / 4096) mod 64;
     128 + (cp / 64) mod 64; 128 + cp mod 64].

Definition isLeadSurrogate (c : Z) : bool := (55296 <=? c) && (c <=? 56319).
Definition isTrailSurrogate (c : Z) : bool := (56320 <=? c) && (c <=? 57343).

(** [encodeURIComponent(s)]; [None] stands for the URIError thrown at an
    unpaired surrogate. *)
Fixpoint encodeURIComponent (s : jsstring) : option jsstring :=
  match s with
  | [] => Some []
  | c :: r =>
      if uriUnescaped c then (c ::.) <$> encodeURIComponent r
      else if isTrailSurrogate c then None
      else if isLeadSurrogate c then
        match r with
        | d :: r' =>
            if isTrailSurrogate d then
              let cp := (c - 55296) * 1024 + (d - 56320) + 65536 in
              (concat (percent <$> utf8Octets cp) ++.) <$> encodeURIComponent r'
            else None
        | [] => None
        end
      else (concat (percent <$> utf8Octets c) ++.) <$> encodeURIComponent r
  end.

Definition URIError : Thrown := JsError (js "URI malformed").

(** [s.isWellFormed()]: no unpaired surrogate. *)
Fixpoint isWellFormed (s : jsstring) : bool :=
  match s with
  | [] => true
  | c :: r =>
      if isLeadSurrogate c then
        match r with
        | d :: r' => isTrailSurrogate d && isWellFormed r'
        | [] => false
        end
      else negb (isTrailSurrogate c) && isWellFormed r
  end.

(** *** Map: insertion-ordered, [set] on a present key keeps its place *)

Section Map.
Context {V : Type}.

Definition Map := list (jsstring * V).

Fixpoint get (m : Map) (k : jsstring) : option V :=
    match m with
    | [] => None
    | (k', v) :: r => if str_eqb k' k then Some v else get r k
    end.

Fixpoint set (m : Map) (k : jsstring) (v : V) : Map :=
    match m with
    | [] => [(k, v)]
    | (k', v') :: r =>
        if str_eqb k' k then (k', v) :: r else (k', v') :: set r k v
    end.

Definition values (m : Map) : list V := snd <$> m.
Definition keys (m : Map) : list jsstring := fst <$> m.
End Map.
Arguments Map V : clear implicits.

End JS.

(** ** Buffer.toString('utf-8', start, end)

    Node decodes UTF-8 as the WHATWG decoder does: an ill-formed sequence
    yields U+FFFD and the offending byte is read again as the start of a new
    sequence; an incomplete sequence at the end of the input yields U+FFFD. *)

Module Buffer.
Import JS.

Definition t := list byte.

Definition octet (b : byte) : Z := Z.of_N (Byte.to_N b).

Record Decoder := mkDecoder {
  codePoint : Z;      (* bits collected so far *)
  needed : nat;       (* continuation bytes still expected *)
  lower : Z;          (* bounds on the next continuation byte *)
  upper : Z }.

Definition idle : Decoder := mkDecoder 0 0 128 191.

(** A byte read with no sequence in progress. *)
Definition lead (b : Z) : Decoder * list Z :=
  if b <=? 127 then (idle, [b])
  else if (194 <=? b) && (b <=? 223) then (mkDecoder (b - 192) 1 128 191, [])
  else if (224 <=? b) && (b <=? 239) then
    (mkDecoder (b - 224) 2 (if b =? 224 then 160 else 128)
                           (if b =? 237 then 159 else 191), [])
  else if (240 <=? b) && (b <=? 244) then
    (mkDecoder (b - 240) 3 (if b =? 240 then 144 else 128)
                           (if b =? 244 then 143 else 191), [])
  else (idle, [65533]).

(** A code point as UTF-16 code units. *)
Definition codeUnits (cp : Z) : list Z :=
  if cp <? 65536 then [cp]
  else [55296 + (cp - 65536) / 1024; 56320 + (cp - 65536) mod 1024].

Definition feed (st : Decoder) (b : Z) : Decoder * list Z :=
  match needed st with
  | O => lead b
  | S n =>
      if (lower st <=? b) && (b <=? upper st) then
        let cp := codePoint st * 64 + (b - 128) in
        match n with
        | O => (idle, codeUnits cp)
        | S _ => (mkDecoder cp n 128 191, [])
        end
      else
        let '(st', out) := lead b in (st', 65533 :: out)
  end.

Fixpoint decodeFrom (st : Decoder) (bs : list Z) : jsstring :=
  match bs with
  | [] => match needed st with O => [] | S _ => [65533] end
  | b :: r => let '(st', out) := feed st b in out ++ decodeFrom st' r
  end.

(** [buf.toString('utf-8', start, end)] *)
Definition toString (buf : t) (start end_ : nat) : jsstring :=
  decodeFrom idle (octet <$> take (end_ - start)%nat (drop start buf)).

End Buffer.

(** ** pdf.service.ts *)

Module PDFService.
Import JS.

(** The PDF magic number, the bytes of '%PDF-'. *)
Definition magic : Buffer.t := [x25; x50; x44; x46; x2d].

(** [isValidPDF(filePath)], given how [fs.readFile(filePath)] settles. *)
Definition isValidPDF (readFile : Settled Buffer.t) : Settled bool :=
  tryCatch
    (bind readFile (fun dataBuffer =>
       let header := Buffer.toString dataBuffer 0 5 in
       Fulfilled (str_eqb header (js "%PDF-"))))
    (fun error => Fulfilled false).

End PDFService.

(** ** zod: the schema combinators used by contract.types.ts

    [parse] follows zod 3: [z.object] keeps the keys of its shape and strips
    unknown keys, a missing key reads as [undefined], [optional] accepts
    [undefined], [z.number] rejects NaN. [None] stands for the thrown
    ZodError. *)

Module Zod.
Import JS.

Inductive value :=
| VUndefined
| VNull
| VBoolean (b : bool)
| VNumber (n : Z)
| VNaN
| VString (s : jsstring)
| VArray (elements : list value)
| VObject (properties : list (jsstring * value)).

Inductive ZodType :=
| string
| number
| enum (options : list jsstring)
| array (element : ZodType)
| object (shape : list (jsstring * ZodType))
| optional (inner : ZodType).

(** [data[key]] *)
Fixpoint prop (properties : list (jsstring * value)) (key : jsstring) : value :=
  match properties with
  | [] => VUndefined
  | (k, v) :: r => if str_eqb k key then v else prop r key
  end.

(** [key in data] *)
Fixpoint hasKey (properties : list (jsstring * value)) (key : jsstring) : bool :=
  match properties with
  | [] => false
  | (k, _) :: r => str_eqb k key || hasKey r key
  end.

Definition isUndefined (v : value) : bool :=
  match v with VUndefined => true | _ => false end.

Fixpoint parse (t : ZodType) (data : value) {struct t} : option value :=
  match t with
  | string =>
      match data with VString s => Some (VString s) | _ => None end
  | number =>
      match data with VNumber n => Some (VNumber n) | _ => None end
  | enum options =>
      match data with
      | VString s => if existsb (str_eqb s) options then Some (VString s) else None
      | _ => None
      end
  | array element =>
      match data with
      | VArray elements => VArray <$> mapM (parse element) elements
      | _ => None
      end
  | object shape =>
      match data with
      | VObject properties =>
          (fix fields (sh : list (jsstring * ZodType))
             : option (list (jsstring * value)) :=
             match sh with
             | [] => Some []
             | (key, validator) :: rest =>
                 match parse validator (prop properties key), fields rest with
                 | Some v, Some out =>
                     if negb (isUndefined v) || hasKey properties key
                     then Some ((key, v) :: out)
                     else Some out
                 | _, _ => None
                 end
             end) shape
          ≫= (fun out => Some (VObject out))
      | _ => None
      end
  | optional inner =>
      match data with
      | VUndefined => Some VUndefined
      | _ => parse inner data
      end
  end.

(** [schema.safeParse(data).success] *)
Definition validates (t : ZodType) (data : value) : bool :=
  match parse t data with Some _ => true | None => false end.

End Zod.

(** ** contract.types.ts *)

Module Types.
Import JS.

Definition ContractDataSchema : Zod.ZodType :=
  Zod.object [
    (js "contractTitle", Zod.string);
    (js "contractNumber", Zod.optional Zod.string);
    (js "effectiveDate", Zod.string);
    (js "expirationDate", Zod.optional Zod.string);
    (js "parties", Zod.array (Zod.object [
       (js "name", Zod.string);
       (js "role", Zod.enum [js "provider"; js "recipient"; js "other"]);
       (js "address", Zod.optional Zod.string)]));
    (js "contractValue", Zod.optional (Zod.object [
       (js "amount", Zod.optional Zod.number);
       (js "currency", Zod.optional Zod.string)]));
    (js "keyTerms", Zod.array Zod.string);
    (js "obligations", Zod.array (Zod.object [
       (js "party", Zod.string);
       (js "description", Zod.string)]));
    (js "renewalTerms", Zod.optional Zod.string);
    (js "terminationClauses", Zod.optional (Zod.array Zod.string));
    (js "governingLaw", Zod.optional Zod.string);
    (js "specialProvisions", Zod.optional (Zod.array Zod.string))
  ].

(** The static type [ContractData] as the services use it: the fields of the
    schema and the two free-text fields [aiSummary] and [templateData] that
    ai.service.ts writes and confluence.service.ts reads. Numbers are
    integers here: the record has no NaN, no infinity and no fraction, which
    a [number] of the static type can be. *)

Inductive Role := provider | recipient | other.

Record Party := mkParty {
  name : jsstring;
  role : Role;
  address : option jsstring }.

Record ContractValue := mkContractValue {
  amount : option Z;
  currency : option jsstring }.

Record Obligation := mkObligation {
  party : jsstring;
  description : jsstring }.

Record ContractData := mkContractData {
  contractTitle : jsstring;
  contractNumber : option jsstring;
  effectiveDate : jsstring;
  expirationDate : option jsstring;
  parties : list Party;
  contractValue : option ContractValue;
  keyTerms : list jsstring;
  obligations : list Obligation;
  renewalTerms : option jsstring;
  terminationClauses : option (list jsstring);
  governingLaw : option jsstring;
  specialProvisions : option (list jsstring);
  aiSummary : option jsstring;
  templateData : option jsstring }.

(** The object a typed record is at run time: an absent optional field is a
    missing key. *)

Definition field {A} (key : string) (enc : A -> Zod.value) (a : A)
  : list (jsstring * Zod.value) := [(js key, enc a)].

Definition fieldOpt {A} (key : string) (enc : A -> Zod.value) (a : option A)
  : list (jsstring * Zod.value) :=
  match a with
  | Some x => [(js key, enc x)]
  | None => []
  end.

Definition strings (l : list jsstring) : Zod.value :=
  Zod.VArray (Zod.VString <$> l).

Definition roleName (r : Role) : jsstring :=
  match r with
  | provider => js "provider"
  | recipient => js "recipient"
  | other => js "other"
  end.

Definition partyObject (p : Party) : Zod.value :=
  Zod.VObject (field "name" Zod.VString (name p)
               ++ field "role" Zod.VString (roleName (role p))
               ++ fieldOpt "address" Zod.VString (address p)).

Definition contractValueObject (c : ContractValue) : Zod.value :=
  Zod.VObject (fieldOpt "amount" Zod.VNumber (amount c)
               ++ fieldOpt "currency" Zod.VString (currency c)).

Definition obligationObject (o : Obligation) : Zod.value :=
  Zod.VObject (field "party" Zod.VString (party o)
               ++ field "description" Zod.VString (description o)).

Definition toObject (d : ContractData) : Zod.value :=
  Zod.VObject (
    field "contractTitle" Zod.VString (contractTitle d)
    ++ fieldOpt "contractNumber" Zod.VString (contractNumber d)
    ++ field "effectiveDate" Zod.VString (effectiveDate d)
    ++ fieldOpt "expirationDate" Zod.VString (expirationDate d)
    ++ field "parties" (fun l => Zod.VArray (partyObject <$> l)) (parties d)
    ++ fieldOpt "contractValue" contractValueObject (contractValue d)
    ++ field "keyTerms" strings (keyTerms d)
    ++ field "obligations" (fun l => Zod.VArray (obligationObject <$> l))
         (obligations d)
    ++ fieldOpt "renewalTerms" Zod.VString (renewalTerms d)
    ++ fieldOpt "terminationClauses" strings (terminationClauses d)
    ++ fieldOpt "governingLaw" Zod.VString (governingLaw d)
    ++ fieldOpt "specialProvisions" strings (specialProvisions d)
    ++ fieldOpt "aiSummary" Zod.VString (aiSummary d)
    ++ fieldOpt "templateData" Zod.VString (templateData d)).

(** Modelled from the spec: the field [targetConfluenceUrl] of
    [ProcessingJob], the optional publish target of a job, which
    processor.service.ts stores at submission and reads at the publication
    and which the declaration of the type in the sources does not list. The
    other fields are those of the declaration. *)

Inductive Status := pending | processing | completed | failed.

Record ProcessingJob := mkJob {
  id : jsstring;
  filename : jsstring;
  status : Status;
  createdAt : Date;
  completedAt : option Date;
  error : option jsstring;
  contractData : option ContractData;
  confluencePageUrl : option jsstring;
  targetConfluenceUrl : option jsstring }.

End Types.

(** ** ai.service.ts: the demo mode of the structured extraction *)

Module AIService.
Import JS Types.

(** [this.demoMode = !apiKey || apiKey.includes('your_')] *)
Definition demoMode (apiKey : option jsstring) : bool :=
  negb (truthy apiKey) || includes (default [] apiKey) (js "your_").

(** The lines of a template literal, joined by line feeds. *)
Definition lines (l : list jsstring) : jsstring :=
  match l with
  | [] => []
  | h :: t => h ++ concat ((fun x => 10 :: x) <$> t)
  end.

(** U+2022, the bullet of the summary. *)
Definition bullet : jsstring := [8226].

Definition generateTemplateData (contractText : jsstring) : jsstring :=
  lines [
    js "DEMO TEMPLATE DATA";
    js "";
    js "This contract has been parsed into the placeholder template format.";
    js "";
    js "CONTRACT SECTIONS:";
    js "1. Parties & Basic Information";
    js "2. Terms & Conditions";
    js "3. Financial Obligations";
    js "4. Renewal & Termination";
    js "";
    js "EXTRACTED TEXT PREVIEW:";
    substring contractText 0 500 ++ js "...";
    js "";
    js "Note: Configure ANTHROPIC_API_KEY to parse contracts into your custom template format."
  ].

Definition demoSummary : jsstring :=
  lines [
    js "EXECUTIVE SUMMARY (Demo Mode)";
    js "";
    js "This service agreement establishes a 12-month engagement between Demo Company LLC (Provider) and Sample Client Corp (Recipient) with a total contract value of $50,000 USD.";
    js "";
    js "Key Points:";
    bullet ++ js " Contract Duration: January 1, 2025 - January 1, 2026";
    bullet ++ js " Financial Terms: $50,000 USD total value";
    bullet ++ js " Auto-renewal provisions with 30-day notice requirement";
    bullet ++ js " Standard termination clauses for both convenience and breach scenarios";
    js "";
    js "The agreement includes standard provisions for services delivery, payment terms (Net 30), and mutual confidentiality obligations. Governing law is under State of Demo jurisdiction.";
    js "";
    js "Note: This is generated demo data. Configure ANTHROPIC_API_KEY for real AI-powered summaries."
  ].

Definition generateDemoData (contractText : jsstring) : ContractData :=
  let firstLine :=
    or_else ((fun l => substring l 0 100) <$> split 10 contractText !! 0%nat)
            (js "Sample Contract") in
  {| contractTitle := or_else (Some (trim firstLine)) (js "Demo Service Agreement");
     contractNumber := Some (js "DEMO-2025-001");
     effectiveDate := js "2025-01-01";
     expirationDate := Some (js "2026-01-01");
     parties := [
       {| name := js "Demo Company LLC";
          role := provider;
          address := Some (js "123 Demo Street, Demo City, DC 12345") |};
       {| name := js "Sample Client Corp";
          role := recipient;
          address := Some (js "456 Sample Avenue, Sample Town, ST 67890") |} ];
     contractValue := Some {| amount := Some 50000; currency := Some (js "USD") |};
     keyTerms := [
       js "Services to be provided as outlined in Exhibit A";
       js "Payment terms: Net 30 days";
       js "Confidentiality obligations apply to both parties";
       js "Contract text preview: " ++ substring contractText 0 150 ++ js "..." ];
     obligations := [
       {| party := js "Demo Company LLC";
          description := js "Provide services as specified in the contract" |};
       {| party := js "Sample Client Corp";
          description := js "Make timely payments and provide necessary access" |} ];
     renewalTerms :=
       Some (js "Auto-renewal for 1 year unless terminated with 30 days notice");
     terminationClauses := Some [
       js "Either party may terminate with 30 days written notice";
       js "Immediate termination allowed for material breach" ];
     governingLaw := Some (js "State of Demo");
     specialProvisions := Some [
       js "This is DEMO DATA - no real AI extraction was performed";
       js "Configure ANTHROPIC_API_KEY in .env for real extraction" ];
     aiSummary := Some demoSummary;
     templateData := Some (generateTemplateData contractText) |}.

(** [extractContractData(contractText)]. Outside demo mode the request to the
    model and the parsing of its answer are the argument [remote]; whatever
    it throws is wrapped by the [catch]. *)
Definition extractContractData (demo : bool)
    (remote : jsstring -> Settled ContractData) (contractText : jsstring)
  : Settled ContractData :=
  tryCatch
    (if demo then Fulfilled (generateDemoData contractText)
     else remote contractText)
    (fun error =>
       Rejected (JsError (js "Failed to extract contract data: " ++ messageOf error))).

End AIService.

(** ** confluence.service.ts *)

Module ConfluenceService.
Import JS Types.

Record Env := mkEnv {
  CONFLUENCE_BASE_URL : option jsstring;
  CONFLUENCE_SPACE_KEY : option jsstring;
  CONFLUENCE_PARENT_PAGE_ID : option jsstring;
  CONFLUENCE_USER_EMAIL : option jsstring;
  CONFLUENCE_API_TOKEN : option jsstring }.

Record t := mkService {
  baseUrl : jsstring;
  spaceKey : jsstring;
  parentPageId : option jsstring;
  demoMode : bool }.

Definition constructor (env : Env) : t :=
  let baseUrl := or_else (CONFLUENCE_BASE_URL env) [] in
  let spaceKey := or_else (CONFLUENCE_SPACE_KEY env) [] in
  let email := CONFLUENCE_USER_EMAIL env in
  let apiToken := CONFLUENCE_API_TOKEN env in
  {| baseUrl := baseUrl;
     spaceKey := spaceKey;
     parentPageId := CONFLUENCE_PARENT_PAGE_ID env;
     demoMode :=
       negb (truthy (Some baseUrl)) || negb (truthy email)
       || negb (truthy apiToken) || negb (truthy (Some spaceKey))
       || includes baseUrl (js "your-domain")
       || includes (default [] email) (js "your-email") |}.

(** The body of [POST /content]. *)
Record PageData := mkPageData {
  title : jsstring;
  space : jsstring;
  storage : jsstring;
  ancestors : option jsstring }.

(** How [this.client.post('/content', pageData)] settles. *)
Inductive PostResult :=
| Created (webui : jsstring)                       (* response.data._links.webui *)
| AxiosError (responseMessage : option jsstring) (message : jsstring)
| Failure (e : Thrown).

(** What a call of [createContractPage] does: it settles at once, or it
    sends one request and settles from the answer. *)
Inductive Outcome :=
| Settles (r : Settled jsstring)
| Posts (pageData : PageData) (k : PostResult -> Settled jsstring).

Definition buildPageTitle (contractData : ContractData) : jsstring :=
  let number :=
    if truthy (contractNumber contractData)
    then js " (" ++ default [] (contractNumber contractData) ++ js ")"
    else [] in
  contractTitle contractData ++ number.

Definition demoUrlPrefix : jsstring :=
  js "https://demo.confluence.com/wiki/spaces/DEMO/pages/123456/".

(** [createContractPage(contractData, targetUrl)]; the HTML of the page is
    the argument [buildPageContent]. *)
Definition createContractPage (this : t)
    (buildPageContent : ContractData -> jsstring)
    (contractData : ContractData) (targetUrl : option jsstring) : Outcome :=
  if demoMode this then
    if truthy targetUrl then Settles (Fulfilled (default [] targetUrl))
    else
      match encodeURIComponent (contractTitle contractData) with
      | Some component => Settles (Fulfilled (demoUrlPrefix ++ component))
      | None => Settles (Rejected URIError)     (* rethrown by the catch *)
      end
  else
    Posts {| title := buildPageTitle contractData;
             space := spaceKey this;
             storage := buildPageContent contractData;
             ancestors :=
               if truthy (parentPageId this) then parentPageId this else None |}
          (fun response =>
             match response with
             | Created webui => Fulfilled (baseUrl this ++ js "/wiki" ++ webui)
             | AxiosError responseMessage message =>
                 Rejected (JsError (js "Confluence API error: "
                                    ++ or_else responseMessage message))
             | Failure e => Rejected e
             end).

End ConfluenceService.

(** ** processor.service.ts

    The job objects live in a heap and [this.jobs] maps an id to a reference,
    as the source keeps one mutable object per job and stores it in the Map.
    A run of [executeProcessing] is a task: it is suspended at one of its
    [await]s and is resumed by the way the awaited promise settles. Every
    call made to a provider or to the file system is appended to a log. *)

Module ProcessorService.
Import JS Types.

Definition ref := nat.

Inductive Call :=
| IsValidPDF (filePath : jsstring)
| ExtractText (filePath : jsstring)
| ExtractContractData (contractText : jsstring)
| CreateContractPage (contractData : ContractData) (targetUrl : option jsstring)
| Unlink (filePath : jsstring).

(** The [await] a task is suspended at, with the locals it still needs. *)
Inductive Await :=
| AwaitIsValidPDF                                   (* line 63 *)
| AwaitExtractText                                  (* line 70 *)
| AwaitExtractContractData (contractText : jsstring) (* line 74 *)
| AwaitCreateContractPage (contractData : ContractData)
                          (targetUrl : option jsstring) (* line 78 *)
| AwaitUnlink                                       (* lines 93 and 106 *)
| Returned.

Record Task := mkTask {
  jobId : jsstring;
  filePath : jsstring;
  job : ref;
  at_ : Await }.

Record State := mkState {
  jobs : Map ref;                       (* this.jobs *)
  heap : list ProcessingJob;            (* the job objects *)
  tasks : list Task;                    (* the runs of executeProcessing *)
  calls : list (jsstring * Call) }.     (* job id and call, oldest first *)

(** [new ProcessorService()] *)
Definition constructor : State := mkState [] [] [] [].

(** How the promise a task awaits settles. *)
Inductive Reply :=
| ReadFileSettled (r : Settled Buffer.t)       (* inside isValidPDF *)
| ExtractTextSettled (r : Settled jsstring)
| ExtractContractDataSettled (r : Settled ContractData)
| CreateContractPageSettled (r : Settled jsstring)
| UnlinkSettled (r : Settled unit).

(** The assignments to the fields of a job object. *)
Definition setProcessing (j : ProcessingJob) : ProcessingJob :=
  mkJob (id j) (filename j) processing (createdAt j) (completedAt j) (error j)
        (contractData j) (confluencePageUrl j) (targetConfluenceUrl j).

Definition setCompleted (now : Date) (data : ContractData) (url : jsstring)
    (j : ProcessingJob) : ProcessingJob :=
  mkJob (id j) (filename j) completed (createdAt j) (Some now) (error j)
        (Some data) (Some url) (targetConfluenceUrl j).

Definition setFailed (now : Date) (message : jsstring) (j : ProcessingJob)
  : ProcessingJob :=
  mkJob (id j) (filename j) failed (createdAt j) (Some now) (Some message)
        (contractData j) (confluencePageUrl j) (targetConfluenceUrl j).

(** Mutation of the object behind [t.job], then [this.jobs.set(jobId, job)]. *)
Definition update (t : Task) (f : ProcessingJob -> ProcessingJob) (s : State)
  : State :=
  mkState (set (jobs s) (jobId t) (job t)) (alter f (job t) (heap s))
          (tasks s) (calls s).

Definition call (t : Task) (c : Call) (s : State) : State :=
  mkState (jobs s) (heap s) (tasks s) (calls s ++ [(jobId t, c)]).

Definition suspend (t : Task) (a : Await) : Task :=
  mkTask (jobId t) (filePath t) (job t) a.

(** Lines 97-108: the [catch] block, up to its [await fs.unlink]. *)
Definition catchBlock (now : Date) (t : Task) (e : Thrown) (s : State)
  : Task * State :=
  let s := update t (setFailed now (messageOf e)) s in
  (suspend t AwaitUnlink, call t (Unlink (filePath t)) s).

(** Lines 68-70: after the validation, up to [await extractText]. *)
Definition afterValidation (now : Date) (t : Task) (isValid : Settled bool)
    (s : State) : Task * State :=
  match isValid with
  | Fulfilled true =>
      (suspend t AwaitExtractText, call t (ExtractText (filePath t)) s)
  | Fulfilled false => catchBlock now t (JsError (js "Invalid PDF file")) s
  | Rejected e => catchBlock now t e s
  end.

(** One step of a task: the code between the [await] it is suspended at and
    the next one. [None]: the reply is not one for this [await]. *)
Definition resume (now : Date) (t : Task) (r : Reply) (s : State)
  : option (Task * State) :=
  match at_ t, r with
  | AwaitIsValidPDF, ReadFileSettled readFile =>
      Some (afterValidation now t (PDFService.isValidPDF readFile) s)
  | AwaitExtractText, ExtractTextSettled (Fulfilled contractText) =>
      Some (suspend t (AwaitExtractContractData contractText),
            call t (ExtractContractData contractText) s)
  | AwaitExtractContractData _, ExtractContractDataSettled (Fulfilled data) =>
      let targetUrl := heap s !! job t ≫= targetConfluenceUrl in
      Some (suspend t (AwaitCreateContractPage data targetUrl),
            call t (CreateContractPage data targetUrl) s)
  | AwaitCreateContractPage data _, CreateContractPageSettled (Fulfilled url) =>
      let s := update t (setCompleted now data url) s in
      Some (suspend t AwaitUnlink, call t (Unlink (filePath t)) s)
  | AwaitExtractText, ExtractTextSettled (Rejected e)
  | AwaitExtractContractData _, ExtractContractDataSettled (Rejected e)
  | AwaitCreateContractPage _ _, CreateContractPageSettled (Rejected e) =>
      Some (catchBlock now t e s)
  | AwaitUnlink, UnlinkSettled _ =>
      Some (suspend t Returned, s)       (* a failed unlink is only logged *)
  | _, _ => None
  end.

(** Lines 30-40 of [processContract]: the job object is created and stored. *)
Definition createJob (uuid : jsstring) (now : Date) (filename : jsstring)
    (targetConfluenceUrl : option jsstring) (s : State) : State :=
  let job := mkJob uuid filename pending now None None None None
                   targetConfluenceUrl in
  mkState (set (jobs s) uuid (length (heap s))) (heap s ++ [job])
          (tasks s) (calls s).

(** Lines 53-63: [executeProcessing] up to its first [await]; this part runs
    inside the call made by [processContract]. *)
Definition executeProcessing (jobId filePath : jsstring) (s : State) : State :=
  match get (jobs s) jobId with
  | None => s
  | Some job =>
      let t := mkTask jobId filePath job AwaitIsValidPDF in
      let s := update t setProcessing s in
      let s := call t (IsValidPDF filePath) s in
      mkState (jobs s) (heap s) (tasks s ++ [t]) (calls s)
  end.

(** [processContract(filePath, filename, targetConfluenceUrl)], with the
    value of [uuidv4()] and of [new Date()]. *)
Definition processContract (uuid : jsstring) (now : Date)
    (filePath filename : jsstring) (targetConfluenceUrl : option jsstring)
    (s : State) : jsstring * State :=
  let s := createJob uuid now filename targetConfluenceUrl s in
  let s := executeProcessing uuid filePath s in
  (uuid, s).

(** [getJobStatus(jobId)] and [getAllJobs()]: the result is the job object,
    that is a reference, and the state after the call. *)
Definition getJobStatus (jobId : jsstring) (s : State) : option ref * State :=
  (get (jobs s) jobId, s).

Definition getAllJobs (s : State) : list ref * State :=
  (values (jobs s), s).

(** The task of index [i] is resumed. *)
Definition resumeTask (i : nat) (now : Date) (r : Reply) (s : State)
  : option State :=
  t ← tasks s !! i;
  '(t', s') ← resume now t r s;
  Some (mkState (jobs s') (heap s') (<[i := t']> (tasks s')) (calls s')).

(** The event loop: a submission, or a task resumed by a reply. *)
Inductive step : State -> State -> Prop :=
| step_submit uuid now filePath filename targetConfluenceUrl s :
    step s (processContract uuid now filePath filename targetConfluenceUrl s).2
| step_resume i now r s s' :
    resumeTask i now r s = Some s' ->
    step s s'.

Inductive reachable : State -> Prop :=
| reachable_init : reachable constructor
| reachable_step s s' : reachable s -> step s s' -> reachable s'.

(** *** A job run against given providers *)

Record Providers := mkProviders {
  readFile : jsstring -> Settled Buffer.t;
  extractText : jsstring -> Settled jsstring;
  extractContractData : jsstring -> Settled ContractData;
  createContractPage : ContractData -> option jsstring -> Settled jsstring;
  unlink : jsstring -> Settled unit;
  clock : nat -> Date }.       (* the time at the n-th resumption *)

Definition pending_call (t : Task) : option Call :=
  match at_ t with
  | AwaitIsValidPDF => Some (IsValidPDF (filePath t))
  | AwaitExtractText => Some (ExtractText (filePath t))
  | AwaitExtractContractData contractText =>
      Some (ExtractContractData contractText)
  | AwaitCreateContractPage data targetUrl =>
      Some (CreateContractPage data targetUrl)
  | AwaitUnlink => Some (Unlink (filePath t))
  | Returned => None
  end.

Definition answer (P : Providers) (c : Call) : Reply :=
  match c with
  | IsValidPDF filePath => ReadFileSettled (readFile P filePath)
  | ExtractText filePath => ExtractTextSettled (extractText P filePath)
  | ExtractContractData contractText =>
      ExtractContractDataSettled (extractContractData P contractText)
  | CreateContractPage data targetUrl =>
      CreateContractPageSettled (createContractPage P data targetUrl)
  | Unlink filePath => UnlinkSettled (unlink P filePath)
  end.

(** The task of index [i] is resumed with the providers' answers until it
    has returned, at most [fuel] times. *)
Fixpoint run (P : Providers) (fuel n i : nat) (s : State) : State :=
  match fuel with
  | O => s
  | S fuel =>
      match tasks s !! i ≫= pending_call with
      | None => s
      | Some c =>
          match resumeTask i (clock P n) (answer P c) s with
          | Some s' => run P fuel (S n) i s'
          | None => s
          end
      end
  end.

(** A submission and the whole run of its job; a task has five [await]s. *)
Definition submitAndRun (P : Providers) (uuid : jsstring) (now : Date)
    (filePath filename : jsstring) (targetConfluenceUrl : option jsstring)
    (s : State) : State :=
  run P 5 0 (length (tasks s))
      (processContract uuid now filePath filename targetConfluenceUrl s).2.

End ProcessorService.

(** ** The HTTP surface *)

Module Http.
Import JS.

Record Response := mkResponse {
  statusCode : Z;
  body : Zod.value }.

(** An object literal; a property whose value is [undefined] is left out, as
    [res.json] drops it. *)
Definition str (key : string) (s : jsstring) : list (jsstring * Zod.value) :=
  [(js key, Zod.VString s)].

Definition strOpt (key : string) (s : option jsstring)
  : list (jsstring * Zod.value) :=
  match s with
  | Some s => [(js key, Zod.VString s)]
  | None => []
  end.

(** A Date is serialised from its time value. *)
Definition date (key : string) (d : Date) : list (jsstring * Zod.value) :=
  [(js key, Zod.VNumber d)].

Definition dateOpt (key : string) (d : option Date)
  : list (jsstring * Zod.value) :=
  match d with
  | Some d => [(js key, Zod.VNumber d)]
  | None => []
  end.

(** The errors that reach an error handler. *)
Inductive Err :=
| ZodError (issues : list (list jsstring * jsstring)) (message : jsstring)
| AppError (statusCode : Z) (message : jsstring)
| PlainError (message : jsstring).          (* Error, MulterError *)

Definition message (e : Err) : jsstring :=
  match e with
  | ZodError _ m | AppError _ m | PlainError m => m
  end.

End Http.

(** ** middleware/error.middleware.ts *)

Module ErrorMiddleware.
Import JS Http.

(** [path.join('.')] *)
Definition join (sep : jsstring) (l : list jsstring) : jsstring :=
  match l with
  | [] => []
  | h :: t => h ++ concat ((fun x => sep ++ x) <$> t)
  end.

(** [errorHandler(err, req, res, next)], with the two environment variables
    it reads. *)
Definition errorHandler (MAX_FILE_SIZE_MB NODE_ENV : option jsstring)
    (err : Err) : Response :=
  match err with
  | ZodError issues _ =>
      mkResponse 400 (Zod.VObject (
        str "error" (js "Validation error")
        ++ [(js "details",
             Zod.VArray ((fun e : list jsstring * jsstring =>
                            Zod.VObject (str "field" (join (js ".") e.1)
                                         ++ str "message" e.2)) <$> issues))]))
  | AppError statusCode m =>
      mkResponse statusCode (Zod.VObject (str "error" m))
  | PlainError m =>
      if includes m (js "File too large") then
        mkResponse 413 (Zod.VObject (
          str "error" (js "File too large")
          ++ str "details" (js "Maximum file size is "
                            ++ or_else MAX_FILE_SIZE_MB (js "10") ++ js "MB")))
      else if includes m (js "Only PDF files are allowed") then
        mkResponse 400 (Zod.VObject (
          str "error" (js "Invalid file type")
          ++ str "details" (js "Only PDF files are accepted")))
      else
        mkResponse 500 (Zod.VObject (
          str "error" (js "Internal server error")
          ++ strOpt "details"
               (if bool_decide (NODE_ENV = Some (js "development"))
                then Some m else None)))
  end.

End ErrorMiddleware.

(** ** routes/contract.routes.ts *)

Module ContractRoutes.
Import JS Types Http ProcessorService.

(** A file part of a multipart body. *)
Record FilePart := mkFilePart {
  fieldname : jsstring;
  originalname : jsstring;
  mimetype : jsstring;
  size : Z }.

(** A request: at most one file part, and the text fields of the body. *)
Record Request := mkRequest {
  filePart : option FilePart;
  fields : list (jsstring * jsstring) }.

(** [req.file] *)
Record MulterFile := mkMulterFile {
  file_originalname : jsstring;
  file_path : jsstring }.

(** The [fileFilter] of the multer configuration. *)
Definition fileFilter (file : FilePart) : Err + bool :=
  if str_eqb (mimetype file) (js "application/pdf") then inr true
  else inl (PlainError (js "Only PDF files are allowed")).

(** [upload.single('contract')]: multer skips a part whose file name is
    empty ([if (!filename) return fileStream.resume()]), refuses a file in
    another field, applies the filter, stores the file at [path] and refuses
    a file that reaches [limits.fileSize]: the stream of the file reports
    the limit as soon as that many bytes have come, so a file of exactly
    that size is refused too. A request without a file part, or with a
    skipped one, passes with [req.file] undefined. *)
Definition upload_single (fileSize : Z) (path : jsstring) (req : Request)
  : Err + option MulterFile :=
  match filePart req with
  | None => inr None
  | Some file =>
      if str_eqb (originalname file) []
      then inr None
      else if negb (str_eqb (fieldname file) (js "contract"))
      then inl (PlainError (js "Unexpected field"))
      else match fileFilter file with
           | inl e => inl e
           | inr false => inr None
           | inr true =>
               if fileSize <=? size file
               then inl (PlainError (js "File too large"))
               else inr (Some (mkMulterFile (originalname file) path))
           end
  end.

(** The handler of [POST /process], lines 47-72. *)
Definition postProcess (uuid : jsstring) (now : Date)
    (file : option MulterFile) (s : State) : Response * State :=
  match file with
  | None =>
      (mkResponse 400 (Zod.VObject (str "error" (js "No file uploaded"))), s)
  | Some file =>
      let '(jobId, s) :=
        processContract uuid now (file_path file) (file_originalname file)
                        None s in
      (mkResponse 202 (Zod.VObject (
         str "message" (js "Contract processing started")
         ++ str "jobId" jobId
         ++ str "statusUrl" (js "/api/contracts/" ++ jobId ++ js "/status"))),
       s)
  end.

Definition statusName (st : Status) : jsstring :=
  match st with
  | pending => js "pending"
  | processing => js "processing"
  | completed => js "completed"
  | failed => js "failed"
  end.

(** The handler of [GET /:jobId/status], lines 78-111. *)
Definition getStatus (jobId : jsstring) (s : State) : Response * State :=
  let '(job, s) := getJobStatus jobId s in
  match job ≫= (heap s !!.) with
  | None => (mkResponse 404 (Zod.VObject (str "error" (js "Job not found"))), s)
  | Some job =>
      let response :=
        str "id" (id job) ++ str "filename" (filename job)
        ++ str "status" (statusName (status job))
        ++ date "createdAt" (createdAt job)
        ++ dateOpt "completedAt" (completedAt job) in
      let response :=
        match status job with
        | completed =>
            response ++ strOpt "confluencePageUrl" (confluencePageUrl job)
            ++ match contractData job with
               | Some d => [(js "contractData", toObject d)]
               | None => []
               end
        | failed => response ++ strOpt "error" (error job)
        | _ => response
        end in
      (mkResponse 200 (Zod.VObject response), s)
  end.

(** The handler of [GET /jobs], lines 117-138. *)
Definition getJobs (s : State) : Response * State :=
  let '(jobs, s) := getAllJobs s in
  let jobs := omap (heap s !!.) jobs in
  (mkResponse 200 (Zod.VObject [
     (js "total", Zod.VNumber (Z.of_nat (length jobs)));
     (js "jobs", Zod.VArray ((fun job =>
        Zod.VObject (str "id" (id job) ++ str "filename" (filename job)
                     ++ str "status" (statusName (status job))
                     ++ date "createdAt" (createdAt job)
                     ++ dateOpt "completedAt" (completedAt job)
                     ++ strOpt "confluencePageUrl" (confluencePageUrl job)))
        <$> jobs))]), s).

End ContractRoutes.

(** ** index.ts *)

Module Index.
Import JS Http ProcessorService ContractRoutes.

(** The error handler mounted by [app.use], lines 112-117: none of the errors
    that reach it carries a [status] property. *)
Definition errorStatus (err : Err) : option Z := None.

Definition errorHandler (err : Err) : Response :=
  mkResponse (match errorStatus err with
              | Some st => if st =? 0 then 500 else st
              | None => 500
              end)
             (Zod.VObject (str "error"
                (or_else (Some (message err)) (js "Internal server error")))).

(** [POST /api/contracts/process] as the application serves it: the multer
    middleware, then the route handler; an error of the middleware goes to
    the error handler of the application. [fileSize] is the configured
    limit, [path] the name multer stores the upload under. *)
Definition post_process (fileSize : Z) (path uuid : jsstring) (now : Date)
    (req : Request) (s : State) : Response * State :=
  match upload_single fileSize path req with
  | inl err => (errorHandler err, s)
  | inr file => postProcess uuid now file s
  end.

End Index.

(** ** Vocabulary of the statements *)

Module Vocabulary.
Import JS Types ProcessorService.

(** A code unit of the ASCII range. *)
Definition ascii (c : Z) : Prop := c < 128.

(** A decoder inside a multi-byte sequence that can only end in a code point
    outside the ASCII range, or in U+FFFD. *)
Definition progressing (st : Buffer.Decoder) : Prop :=
  128 <= Buffer.lower st /\ 0 <= Buffer.codePoint st /\
  match Buffer.needed st with
  | 1%nat => 2 <= Buffer.codePoint st
  | 2%nat => 1 <= Buffer.codePoint st \/ 160 <= Buffer.lower st
  | 3%nat => 1 <= Buffer.codePoint st \/ 144 <= Buffer.lower st
  | _ => False
  end.

(** The result fields of a job agree with its status. *)
Definition consistent (j : ProcessingJob) : Prop :=
  (is_Some (contractData j) <-> status j = completed) /\
  (is_Some (confluencePageUrl j) <-> status j = completed) /\
  (is_Some (error j) <-> status j = failed).

(** The task has not reached its [try]'s end nor its [catch]. *)
Definition inPipeline (a : Await) : Prop :=
  match a with
  | AwaitUnlink | Returned => False
  | _ => True
  end.

(** What every reachable state satisfies: the task of index [i] owns the job
    object of reference [i], the Map holds valid references, every job
    object is consistent, and the job of a task that is still in the
    pipeline has status 'processing'. *)
Record invariant (s : State) : Prop := mkInvariant {
  inv_length : length (tasks s) = length (heap s);
  inv_job : forall i t, tasks s !! i = Some t -> job t = i;
  inv_ref : forall k l, get (jobs s) k = Some l -> (l < length (heap s))%nat;
  inv_consistent : forall l j, heap s !! l = Some j -> consistent j;
  inv_processing :
    forall i t, tasks s !! i = Some t -> inPipeline (at_ t) ->
                exists j, heap s !! i = Some j /\ status j = processing }.

(** The service with both providers in demo mode: the text of the document
    is [pdfText], the file holds [content]. *)
Definition demoService : ConfluenceService.t :=
  ConfluenceService.mkService [] [] None true.

Definition settled (o : ConfluenceService.Outcome) : Settled jsstring :=
  match o with
  | ConfluenceService.Settles r => r
  | ConfluenceService.Posts _ k => k (ConfluenceService.Failure JsOther)
  end.

Definition demoProviders (content : Buffer.t) (pdfText : jsstring) : Providers :=
  {| readFile := fun _ => Fulfilled content;
     extractText := fun _ => Fulfilled pdfText;
     extractContractData :=
       AIService.extractContractData true (fun _ => Rejected JsOther);
     createContractPage := fun data targetUrl =>
       settled (ConfluenceService.createContractPage demoService
                  (fun _ => []) data targetUrl);
     unlink := fun _ => Fulfilled ();
     clock := fun n => 1000 + Z.of_nat n |}.

(** A file that starts with the magic number, and one that does not. *)
Definition pdfFile : Buffer.t := PDFService.magic ++ [x31; x2e; x37; x0a].
Definition textFile : Buffer.t := [x68; x65; x6c; x6c; x6f; x0a].

(** A first line of 99 letters followed by U+1F600: the title that
    [generateDemoData] cuts at 100 code units ends in a lead surrogate. *)
Definition astralText : jsstring := replicate 99 97 ++ [55357; 56832].

End Vocabulary.

(** ** pdf.service.ts: the text extraction *)

Module TextExtraction.
Import JS.

(** [text.replace(/\s+/g, ' ')]: every maximal run of white space becomes one
    space. [inRun]: the unit before belongs to a run that is already
    replaced. *)
Fixpoint replaceWhiteSpace (inRun : bool) (s : jsstring) : jsstring :=
  match s with
  | [] => []
  | c :: r =>
      if isWhiteSpace c
      then if inRun then replaceWhiteSpace true r
           else 32 :: replaceWhiteSpace true r
      else c :: replaceWhiteSpace false r
  end.

(** The white space at the start of a string, and what follows it. *)
Fixpoint spanWhiteSpace (s : jsstring) : jsstring * jsstring :=
  match s with
  | [] => ([], [])
  | c :: r =>
      if isWhiteSpace c
      then let '(run, rest) := spanWhiteSpace r in (c :: run, rest)
      else ([], s)
  end.

(** What follows the last line feed of a run, when it has one. *)
Fixpoint afterLastLineFeed (run : jsstring) : option jsstring :=
  match run with
  | [] => None
  | c :: r =>
      match afterLastLineFeed r with
      | Some tail => Some tail
      | None => if c =? 10 then Some r else None
      end
  end.

(** [text.replace(/\n\s*\n/g, '\n')]: at a line feed the greedy [\s*] takes
    the whole run of white space that follows and gives back as far as the
    last line feed of that run; the match is replaced by one line feed and
    the search goes on after it. Every step consumes a unit, so the length
    of the string is fuel enough. *)
Fixpoint replaceBlankLines (fuel : nat) (s : jsstring) : jsstring :=
  match fuel with
  | O => s
  | S fuel =>
      match s with
      | [] => []
      | c :: r =>
          if c =? 10 then
            let '(run, rest) := spanWhiteSpace r in
            match afterLastLineFeed run with
            | Some tail => 10 :: replaceBlankLines fuel (tail ++ rest)
            | None => c :: replaceBlankLines fuel r
            end
          else c :: replaceBlankLines fuel r
      end
  end.

(** Lines 21-24: the clean-up of the extracted text. *)
Definition cleanText (text : jsstring) : jsstring :=
  let spaced := replaceWhiteSpace false text in
  trim (replaceBlankLines (length spaced) spaced).

(** What pdf-parse returns. *)
Record PdfData := mkPdfData {
  numpages : nat;
  text : jsstring }.

(** [extractText(filePath)], given how [fs.readFile(filePath)] settles and
    what [pdf(dataBuffer)] does. *)
Definition extractText (readFile : Settled Buffer.t)
    (pdf : Buffer.t -> Settled PdfData) : Settled jsstring :=
  tryCatch
    (bind readFile (fun dataBuffer =>
       bind (pdf dataBuffer) (fun data =>
         Fulfilled (cleanText (text data)))))
    (fun error =>
       Rejected (JsError (js "Failed to extract text from PDF: "
                          ++ messageOf error))).

End TextExtraction.

(** ** confluence.service.ts: the escaping of the page content *)

Module PageContent.
Import JS.

(** [text.replace(/c/g, by)] for a one-unit pattern. *)
Fixpoint replaceAll (c : Z) (by_ : jsstring) (s : jsstring) : jsstring :=
  match s with
  | [] => []
  | x :: r =>
      if x =? c then by_ ++ replaceAll c by_ r else x :: replaceAll c by_ r
  end.

(** [escape(text)], lines 241-248: the five replacements in their order. *)
Definition escape (text : jsstring) : jsstring :=
  replaceAll 39 (js "&#039;")
    (replaceAll 34 (js "&quot;")
       (replaceAll 62 (js "&gt;")
          (replaceAll 60 (js "&lt;")
             (replaceAll 38 (js "&amp;") text)))).

(** The entity of one code unit. *)
Definition entity (c : Z) : jsstring :=
  if c =? 38 then js "&amp;"
  else if c =? 60 then js "&lt;"
  else if c =? 62 then js "&gt;"
  else if c =? 34 then js "&quot;"
  else if c =? 39 then js "&#039;"
  else [c].

End PageContent.

(** ** The lifecycle of the jobs *)

Module Lifecycle.
Import JS Types ProcessorService Vocabulary.

Definition terminal (st : Status) : Prop := st = completed \/ st = failed.

(** What every reachable state satisfies beyond [invariant]: no job is
    'pending'; [completedAt] is set exactly on the terminal jobs; the job of
    a task that has left the pipeline is terminal; a task carries the id of
    its job object, this id is a key of the Map, and the Map files every
    object under its own id. *)
Record lifecycle (s : State) : Prop := mkLifecycle {
  lc_invariant : invariant s;
  lc_started : forall l j, heap s !! l = Some j -> status j <> pending;
  lc_completedAt :
    forall l j, heap s !! l = Some j ->
                (is_Some (completedAt j) <-> terminal (status j));
  lc_finished :
    forall i t j, tasks s !! i = Some t -> heap s !! i = Some j ->
                  ~ inPipeline (at_ t) -> terminal (status j);
  lc_task_id :
    forall i t j, tasks s !! i = Some t -> heap s !! i = Some j ->
                  id j = jobId t;
  lc_task_key : forall i t, tasks s !! i = Some t -> is_Some (get (jobs s) (jobId t));
  lc_key_id :
    forall k l j, get (jobs s) k = Some l -> heap s !! l = Some j -> id j = k }.

End Lifecycle.

(** ** The services as the processor calls them *)

Module Wiring.
Import JS Types ProcessorService.

(** What lies outside the process: the file system, pdf-parse, the request
    to the model with the parsing of its answer, the Confluence API, the
    HTML of the page, the clock. A run reads the upload twice, with
    [fs.readFile] in [isValidPDF] and again in [extractText]; [fs n] is the
    read number [n] of the run, so that the second read may fail, or give
    other bytes, after the first one succeeded. *)
Record Outside := mkOutside {
  fs : nat -> jsstring -> Settled Buffer.t;
  pdf : Buffer.t -> Settled TextExtraction.PdfData;
  model : jsstring -> Settled ContractData;
  confluencePost : ConfluenceService.PageData -> ConfluenceService.PostResult;
  pageContent : ContractData -> jsstring;
  fsUnlink : jsstring -> Settled unit;
  time : nat -> Date }.

(** The calls of [executeProcessing] resolved to the methods of the three
    services: [aiDemo] is the mode of the AIService, [confluence] the
    ConfluenceService. *)
Definition providers (aiDemo : bool) (confluence : ConfluenceService.t)
    (o : Outside) : Providers :=
  {| readFile := fs o 0%nat;
     extractText := fun filePath =>
       TextExtraction.extractText (fs o 1%nat filePath) (pdf o);
     extractContractData := AIService.extractContractData aiDemo (model o);
     createContractPage := fun contractData targetUrl =>
       match ConfluenceService.createContractPage confluence (pageContent o)
               contractData targetUrl with
       | ConfluenceService.Settles r => r
       | ConfluenceService.Posts pageData k => k (confluencePost o pageData)
       end;
     unlink := fsUnlink o;
     clock := time o |}.

End Wiring.

(** ** The storage of the uploads, contract.routes.ts lines 19-27 *)

Module Path.
Import JS.

(** [s.slice(start, end)] *)
Definition slice (s : jsstring) (start end_ : Z) : jsstring :=
  let len := Z.of_nat (length s) in
  let from := if start <? 0 then Z.max (len + start) 0 else Z.min start len in
  let to := if end_ <? 0 then Z.max (len + end_) 0 else Z.min end_ len in
  take (Z.to_nat (to - from)) (drop (Z.to_nat from) s).

(** The variables of the loop of [path.extname], POSIX flavour. *)
Record Scan := mkScan {
  startDot : Z;
  startPart : Z;
  end_ : Z;
  matchedSlash : bool;
  preDotState : Z }.

(** The loop [for (let i = path.length - 1; i >= 0; --i)], entered with
    [i = n - 1]. *)
Fixpoint scan (path : jsstring) (n : nat) (st : Scan) : Scan :=
  match n with
  | O => st
  | S i =>
      let code := default 0 (path !! i) in
      if code =? 47 then
        if negb (matchedSlash st)
        then mkScan (startDot st) (Z.of_nat i + 1) (end_ st) (matchedSlash st)
                    (preDotState st)                                 (* break *)
        else scan path i st                                       (* continue *)
      else
        let st :=
          if end_ st =? -1
          then mkScan (startDot st) (startPart st) (Z.of_nat i + 1) false
                      (preDotState st)
          else st in
        let st :=
          if code =? 46 then
            if startDot st =? -1
            then mkScan (Z.of_nat i) (startPart st) (end_ st) (matchedSlash st)
                        (preDotState st)
            else if negb (preDotState st =? 1)
            then mkScan (startDot st) (startPart st) (end_ st) (matchedSlash st) 1
            else st
          else if negb (startDot st =? -1)
          then mkScan (startDot st) (startPart st) (end_ st) (matchedSlash st) (-1)
          else st in
        scan path i st
  end.

(** What the loop keeps: once [end] is set, no unit from the current index
    up to [end] is a separator, and the dot found lies in that range. *)
Definition scanned (path : jsstring) (n : nat) (st : Scan) : Prop :=
  (matchedSlash st = true -> end_ st = -1) /\
  (end_ st <> -1 ->
   Z.of_nat n <= end_ st <= Z.of_nat (length path) /\
   forall j, (n <= j)%nat -> Z.of_nat j < end_ st -> path !! j <> Some 47) /\
  (startDot st <> -1 ->
   end_ st <> -1 /\ Z.of_nat n <= startDot st < end_ st
   /\ path !! Z.to_nat (startDot st) = Some 46).

(** [path.extname(path)] *)
Definition extname (path : jsstring) : jsstring :=
  let st := scan path (length path) (mkScan (-1) 0 (-1) true 0) in
  if (startDot st =? -1) || (end_ st =? -1) || (preDotState st =? 0)
     || ((preDotState st =? 1) && (startDot st =? end_ st - 1)
         && (startDot st =? startPart st + 1))
  then []
  else slice path (startDot st) (end_ st).

End Path.

Module Storage.
Import JS ContractRoutes.

Fixpoint digits (d : Decimal.uint) : jsstring :=
  match d with
  | Decimal.Nil => []
  | Decimal.D0 d => 48 :: digits d
  | Decimal.D1 d => 49 :: digits d
  | Decimal.D2 d => 50 :: digits d
  | Decimal.D3 d => 51 :: digits d
  | Decimal.D4 d => 52 :: digits d
  | Decimal.D5 d => 53 :: digits d
  | Decimal.D6 d => 54 :: digits d
  | Decimal.D7 d => 55 :: digits d
  | Decimal.D8 d => 56 :: digits d
  | Decimal.D9 d => 57 :: digits d
  end.

(** The string of a number that is an integer below 10^21 in magnitude, as
    [Date.now()] and [Math.round(Math.random() * 1E9)] are. *)
Definition numberToString (n : Z) : jsstring :=
  match Z.to_int n with
  | Decimal.Pos d => digits d
  | Decimal.Neg d => 45 :: digits d
  end.

(** The [filename] callback of [multer.diskStorage]; [now] is [Date.now()]
    and [random] is [Math.round(Math.random() * 1E9)]. *)
Definition filename (now random : Z) (file : FilePart) : jsstring :=
  let uniqueSuffix := numberToString now ++ js "-" ++ numberToString random in
  fieldname file ++ js "-" ++ uniqueSuffix ++ Path.extname (originalname file).

End Storage.

(** * Properties *)

(** ** The definitions on small inputs *)

Section Examples.
Import JS Types ProcessorService Vocabulary.

Example split_lines :
  split 10 (js "ab" ++ [10] ++ js "cd" ++ [10]) = [js "ab"; js "cd"; []].
Proof. reflexivity. Qed.

Example trim_spaces : trim (js "  a b " ++ [9; 10]) = js "a b".
Proof. reflexivity. Qed.

Example substring_swaps : substring (js "contract") 5 2 = js "ntr".
Proof. reflexivity. Qed.

Example encode_reserved :
  encodeURIComponent (js "Lease (2025)/A&B") = Some (js "Lease%20(2025)%2FA%26B").
Proof. reflexivity. Qed.

(** U+00E9 and U+1F600, and a lead surrogate on its own. *)
Example encode_unicode :
  encodeURIComponent [233; 55357; 56832] = Some (js "%C3%A9%F0%9F%98%80").
Proof. reflexivity. Qed.

Example encode_lone_surrogate : encodeURIComponent [97; 55357] = None.
Proof. reflexivity. Qed.

Example toString_header : Buffer.toString pdfFile 0 5 = js "%PDF-".
Proof. reflexivity. Qed.

(** U+2022, U+00E9, U+1F600, then an invalid byte and a truncated sequence. *)
Example toString_multibyte :
  Buffer.toString [xe2; x80; xa2; xc3; xa9; xf0; x9f; x98; x80; xff; xc3] 0 11
  = [8226; 233; 55357; 56832; 65533; 65533].
Proof. reflexivity. Qed.

Example isValidPDF_pdf : PDFService.isValidPDF (Fulfilled pdfFile) = Fulfilled true.
Proof. reflexivity. Qed.

Example isValidPDF_short :
  PDFService.isValidPDF (Fulfilled [x25; x50; x44; x46]) = Fulfilled false.
Proof. reflexivity. Qed.

Example schema_rejects_empty_object :
  Zod.validates ContractDataSchema (Zod.VObject []) = false.
Proof. reflexivity. Qed.

Example schema_rejects_unknown_role :
  Zod.validates ContractDataSchema
    (Zod.VObject [(js "contractTitle", Zod.VString (js "Lease"));
                  (js "effectiveDate", Zod.VString (js "2025-01-01"));
                  (js "parties", Zod.VArray [Zod.VObject
                     [(js "name", Zod.VString (js "A"));
                      (js "role", Zod.VString (js "owner"))]]);
                  (js "keyTerms", Zod.VArray []);
                  (js "obligations", Zod.VArray [])]) = false.
Proof. reflexivity. Qed.

Example demo_title_first_line :
  contractTitle (AIService.generateDemoData (js " Lease " ++ [10] ++ js "Terms"))
  = js "Lease".
Proof. reflexivity. Qed.

Example demo_title_empty_text :
  contractTitle (AIService.generateDemoData []) = js "Sample Contract".
Proof. reflexivity. Qed.

Example demo_title_blank_line :
  contractTitle (AIService.generateDemoData (js "   " ++ [10] ++ js "Terms"))
  = js "Demo Service Agreement".
Proof. reflexivity. Qed.

(** A document in full demo mode: the job completes with the demo locator. *)
Example demo_run :
  heap (submitAndRun (demoProviders pdfFile (js "Lease")) (js "job-1") 0
          (js "uploads/a.pdf") (js "a.pdf") None constructor) !! 0%nat
  = Some (mkJob (js "job-1") (js "a.pdf") completed 0 (Some 1003) None
            (Some (AIService.generateDemoData (js "Lease")))
            (Some (js "https://demo.confluence.com/wiki/spaces/DEMO/pages/123456/Lease"))
            None).
Proof. reflexivity. Qed.

(** The same with a first line cut inside a surrogate pair: the publication
    rejects and the job fails. *)
Example demo_run_astral :
  (heap (submitAndRun (demoProviders pdfFile astralText) (js "job-1") 0
           (js "uploads/a.pdf") (js "a.pdf") None constructor) !! 0%nat
     ≫= error) = Some (js "URI malformed").
Proof. reflexivity. Qed.

End Examples.

(** ** Strings and the Map *)

Section JSFacts.
Import JS.

Lemma str_eqb_eq (a b : jsstring) : str_eqb a b = true <-> a = b.
Proof. unfold str_eqb. apply bool_decide_eq_true. Qed.

Lemma str_eqb_refl (a : jsstring) : str_eqb a a = true.
Proof. by apply str_eqb_eq. Qed.

Lemma str_eqb_neq (a b : jsstring) : a ≠ b -> str_eqb a b = false.
Proof. unfold str_eqb. apply bool_decide_eq_false. Qed.

Context {V : Type}.
Implicit Types (m : Map V) (k : jsstring) (v : V).

Lemma get_set_eq m k v : get (set m k v) k = Some v.
Proof.
  induction m as [|[k' v'] m IH]; simpl.
  - by rewrite str_eqb_refl.
  - destruct (str_eqb k' k) eqn:E; simpl; rewrite E; done.
Qed.

Lemma get_set_ne m k k' v : k ≠ k' -> get (set m k v) k' = get m k'.
Proof.
  intros Hne. induction m as [|[k0 v0] m IH]; simpl.
  - by rewrite str_eqb_neq.
  - destruct (str_eqb k0 k) eqn:E; simpl.
    + apply str_eqb_eq in E as ->. by rewrite str_eqb_neq.
    + by rewrite IH.
Qed.

Lemma keys_set_fresh m k v : get m k = None -> keys (set m k v) = keys m ++ [k].
Proof.
  induction m as [|[k0 v0] m IH]; simpl; [done|].
  destruct (str_eqb k0 k); [done|]. intros H. unfold keys in *. simpl.
  f_equal. by apply IH.
Qed.

Lemma keys_set_present m k v : is_Some (get m k) -> keys (set m k v) = keys m.
Proof.
  induction m as [|[k0 v0] m IH]; simpl.
  - by intros [? ?].
  - destruct (str_eqb k0 k); [done|]. intros H. unfold keys in *. simpl.
    f_equal. by apply IH.
Qed.

Lemma set_same m k v : get m k = Some v -> set m k v = m.
Proof.
  induction m as [|[k0 v0] m IH]; simpl; [done|].
  destruct (str_eqb k0 k); [by intros [= ->]|]. intros H. by rewrite IH.
Qed.

End JSFacts.

(** ** The UTF-8 decoder on ASCII *)

Section DecoderFacts.
Import JS Buffer Vocabulary.

Lemma lead_cases (b : Z) :
  (b <= 127 /\ lead b = (idle, [b]))
  \/ (127 < b /\ lead b = (idle, [65533]))
  \/ (127 < b /\ exists st, lead b = (st, []) /\ progressing st).
Proof.
  unfold lead.
  destruct (Z.leb_spec b 127); [by left|]. right.
  destruct (Z.leb_spec 194 b), (Z.leb_spec b 223); simpl;
    try (right; split; [lia|]; eexists; split; [done|];
         unfold progressing; simpl; lia).
  all: destruct (Z.leb_spec 224 b), (Z.leb_spec b 239); simpl;
    try (right; split; [lia|]; eexists; split; [done|];
         unfold progressing; simpl; destruct (Z.eqb_spec b 224); lia).
  all: destruct (Z.leb_spec 240 b), (Z.leb_spec b 244); simpl;
    try (right; split; [lia|]; eexists; split; [done|];
         unfold progressing; simpl; destruct (Z.eqb_spec b 240); lia).
  all: by left.
Qed.

Lemma codeUnits_not_ascii (cp : Z) :
  128 <= cp -> ~ Forall ascii (codeUnits cp).
Proof.
  intros Hcp H. unfold codeUnits in H.
  destruct (Z.ltb_spec cp 65536).
  - apply Forall_cons in H as [H _]. unfold ascii in H. lia.
  - apply Forall_cons in H as [H _]. unfold ascii in H.
    assert (0 <= (cp - 65536) / 1024) by (apply Z.div_pos; lia). lia.
Qed.

Lemma decodeFrom_progressing (bs : list Z) (st : Decoder) :
  progressing st -> ~ Forall ascii (decodeFrom st bs).
Proof.
  revert st. induction bs as [|b bs IH]; intros st (Hlo & Hcp & Hst) H.
  - simpl in H. destruct (needed st); [done|].
    apply Forall_cons in H as [H _]. unfold ascii in H. lia.
  - simpl in H. unfold feed in H.
    destruct (needed st) as [|n] eqn:En; [done|].
    destruct (Z.leb_spec (lower st) b), (Z.leb_spec b (upper st)); simpl in H;
      try (destruct (lead b) as [st' out]; by apply Forall_cons in H as [? _]).
    destruct n as [|n].
    + apply Forall_app in H as [H _]. simpl in Hst.
      eapply codeUnits_not_ascii; [|done]. lia.
    + simpl in H. eapply IH; [|done].
      unfold progressing; simpl. split; [lia|]. split; [lia|].
      destruct n as [|[|n]]; simpl in Hst; [lia | lia | done].
Qed.

Lemma decodeFrom_ascii (bs : list Z) :
  Forall ascii (decodeFrom idle bs) -> decodeFrom idle bs = bs.
Proof.
  induction bs as [|b bs IH]; [done|].
  change (decodeFrom idle (b :: bs))
    with (let '(st', out) := lead b in out ++ decodeFrom st' bs).
  destruct (lead_cases b) as [[_ ->]|[[_ ->]|[_ (st & -> & Hst)]]]; simpl.
  - intros H. apply Forall_cons in H as [_ H]. by rewrite IH.
  - intros H. by apply Forall_cons in H as [? _].
  - intros H. by apply decodeFrom_progressing in H.
Qed.

Lemma octet_inj (a b : byte) : octet a = octet b -> a = b.
Proof.
  unfold octet. intros H. apply N2Z.inj in H.
  assert (E : Byte.of_N (Byte.to_N a) = Byte.of_N (Byte.to_N b)) by by rewrite H.
  rewrite !Byte.of_to_N in E. congruence.
Qed.

(** The decoded slice is '%PDF-' exactly when the slice is the magic number. *)
Lemma toString_magic (buf : Buffer.t) :
  toString buf 0 5 = js "%PDF-" <-> take 5 buf = PDFService.magic.
Proof.
  unfold toString. rewrite drop_0. change (5 - 0)%nat with 5%nat. split.
  - intros H.
    assert (Hd : decodeFrom idle (octet <$> take 5 buf) = octet <$> take 5 buf).
    { apply decodeFrom_ascii. rewrite H. repeat constructor. }
    rewrite Hd in H.
    change (js "%PDF-") with (octet <$> PDFService.magic) in H.
    revert H. generalize (take 5 buf) PDFService.magic.
    induction l as [|a l IH]; intros [|b m] E; try done.
    simpl in E. injection E as E1 E2. f_equal; [by apply octet_inj | by apply IH].
  - intros ->. reflexivity.
Qed.

End DecoderFacts.

Section RunFacts.
Import JS Types ProcessorService.

Lemma alter_last {A} (f : A -> A) (l : list A) (x : A) :
  alter f (length l) (l ++ [x]) = l ++ [f x].
Proof. by rewrite alter_app_r_alt, Nat.sub_diag. Qed.

Lemma lookup_last {A} (l : list A) (x : A) : (l ++ [x]) !! length l = Some x.
Proof. by rewrite lookup_app_r, Nat.sub_diag. Qed.

Lemma insert_last {A} (l : list A) (x y : A) :
  <[length l := y]> (l ++ [x]) = l ++ [y].
Proof. by rewrite insert_app_r_alt, Nat.sub_diag. Qed.

Lemma update_last J H j T C t f :
  job t = length H -> get J (jobId t) = Some (job t) ->
  update t f (mkState J (H ++ [j]) T C) = mkState J (H ++ [f j]) T C.
Proof.
  intros Hj HJ. unfold update. simpl.
  rewrite (set_same _ _ _ HJ), Hj. by rewrite alter_last.
Qed.

Lemma processContract_state uuid now filePath filename target s :
  (processContract uuid now filePath filename target s).2 =
  mkState (set (jobs s) uuid (length (heap s)))
    (heap s ++ [mkJob uuid filename processing now None None None None target])
    (tasks s ++ [mkTask uuid filePath (length (heap s)) AwaitIsValidPDF])
    (calls s ++ [(uuid, IsValidPDF filePath)]).
Proof.
  unfold processContract, executeProcessing, createJob. cbn [snd jobs].
  rewrite get_set_eq.
  rewrite update_last; [done | done | apply get_set_eq].
Qed.

End RunFacts.

Section PipelineFacts.
Import JS Types ProcessorService.

Lemma run_step P fuel n J H j T t C c t' J' j' C' :
  pending_call t = Some c ->
  resume (clock P n) t (answer P c) (mkState J (H ++ [j]) (T ++ [t]) C)
    = Some (t', mkState J' (H ++ [j']) (T ++ [t]) C') ->
  run P (S fuel) n (length T) (mkState J (H ++ [j]) (T ++ [t]) C)
    = run P fuel (S n) (length T) (mkState J' (H ++ [j']) (T ++ [t']) C').
Proof.
  intros Hc Hr. cbn [run tasks]. rewrite lookup_last. cbn [mbind option_bind].
  rewrite Hc. unfold resumeTask. cbn [tasks]. rewrite lookup_last.
  cbn [mbind option_bind]. rewrite Hr. cbn [mbind option_bind jobs heap tasks calls].
  by rewrite insert_last.
Qed.

Lemma run_returned P fuel n J H j T t C :
  at_ t = Returned ->
  run P fuel n (length T) (mkState J (H ++ [j]) (T ++ [t]) C)
    = mkState J (H ++ [j]) (T ++ [t]) C.
Proof.
  intros Ht. destruct fuel; [done|]. cbn [run tasks]. rewrite lookup_last.
  cbn [mbind option_bind]. unfold pending_call. by rewrite Ht.
Qed.

(** The [catch] block on the state of a job that is being processed. *)
Lemma catchBlock_last now t e J H j T C :
  job t = length H -> get J (jobId t) = Some (job t) ->
  catchBlock now t e (mkState J (H ++ [j]) T C)
    = (suspend t AwaitUnlink,
       mkState J (H ++ [setFailed now (messageOf e) j]) T
               (C ++ [(jobId t, Unlink (filePath t))])).
Proof. intros Hj HJ. unfold catchBlock. by rewrite update_last. Qed.

End PipelineFacts.

Section Invariant.
Import JS Types ProcessorService Vocabulary.

Lemma get_set_ref (m : Map ref) k l k' l' (n : nat) :
  (forall k l, get m k = Some l -> (l < n)%nat) -> (l < n)%nat ->
  get (set m k l) k' = Some l' -> (l' < n)%nat.
Proof.
  intros Hm Hl. destruct (decide (k = k')) as [->|Hne].
  - rewrite get_set_eq. by intros [= <-].
  - rewrite get_set_ne by done. apply Hm.
Qed.

Lemma invariant_init : invariant constructor.
Proof. split; simpl; done. Qed.

Lemma invariant_submit uuid now filePath filename target s :
  invariant s ->
  invariant (processContract uuid now filePath filename target s).2.
Proof.
  intros [Hlen Hjob Href Hcons Hproc]. rewrite processContract_state.
  split; cbn [jobs heap tasks calls].
  - rewrite !length_app. simpl. lia.
  - intros i t Ht. apply lookup_app_Some in Ht as [Ht|[Hi Ht]]; [by apply Hjob|].
    destruct (i - length (tasks s))%nat as [|n] eqn:E; [|done].
    injection Ht as <-. simpl. lia.
  - intros k l. rewrite length_app. simpl. intros Hg.
    eapply get_set_ref in Hg; [done| |lia].
    intros k0 l0 H0. apply Href in H0. lia.
  - intros l j Hl. apply lookup_app_Some in Hl as [Hl|[Hi Hl]]; [by eapply Hcons|].
    destruct (l - length (heap s))%nat; [|done]. injection Hl as <-.
    repeat split; simpl; try done; by intros [? ?].
  - intros i t Ht Ha. apply lookup_app_Some in Ht as [Ht|[Hi Ht]].
    + destruct (Hproc i t Ht Ha) as (j & Hj & Hs). exists j. split; [|done].
      by apply lookup_app_l_Some.
    + destruct (i - length (tasks s))%nat as [|n] eqn:E; [|done].
      assert (i = length (heap s)) as -> by lia.
      rewrite lookup_last. by eexists.
Qed.

(** A step of a task keeps the invariant: either it leaves the heap alone and
    stays in the pipeline, or it writes the terminal fields of its own job. *)
Lemma resume_cases now t r s t' s' :
  resume now t r s = Some (t', s') ->
  job t' = job t /\
  ((heap s' = heap s /\ jobs s' = jobs s /\ tasks s' = tasks s /\
    (inPipeline (at_ t') -> inPipeline (at_ t)))
   \/ (exists f, s' = call t (Unlink (filePath t)) (update t f s) /\
       at_ t' = AwaitUnlink /\ inPipeline (at_ t) /\
       forall j, status j = processing -> consistent j -> consistent (f j))).
Proof.
  assert (Hfail : forall now m j,
             status j = processing -> consistent j -> consistent (setFailed now m j)).
  { intros ??? Hs (H1 & H2 & H3). rewrite Hs in *.
    repeat split; simpl; try done; intros H; (apply H1 in H || apply H2 in H); done. }
  assert (Hok : forall now d u j,
             status j = processing -> consistent j -> consistent (setCompleted now d u j)).
  { intros ???? Hs (H1 & H2 & H3). rewrite Hs in *.
    repeat split; simpl; try done. intros H. by apply H3 in H. }
  unfold resume, afterValidation, catchBlock.
  destruct (at_ t) eqn:Ea, r as [r|r|r|r|r]; try done;
    try destruct r as [?|?]; try destruct (PDFService.isValidPDF _) as [[|]|?];
    intros [= <- <-]; (split; [done|]); simpl;
    first [ left; by rewrite ?Ea | right; eexists; split; [reflexivity|]; rewrite ?Ea; eauto ].
Qed.

Lemma invariant_resume i now r s s' :
  invariant s -> resumeTask i now r s = Some s' -> invariant s'.
Proof.
  intros [Hlen Hjob Href Hcons Hproc]. unfold resumeTask.
  destruct (tasks s !! i) as [t|] eqn:Ht; [|done]. cbn [mbind option_bind].
  destruct (resume now t r s) as [[t' s1]|] eqn:Hr; [|done].
  cbn [mbind option_bind]. intros [= <-].
  pose proof (Hjob i t Ht) as Hi.
  apply resume_cases in Hr as [Hj' [(Hh & HJ & HT & Hp)|(f & -> & Ha & Hp & Hf)]].
  - split; cbn [jobs heap tasks calls]; rewrite ?Hh, ?HJ, ?HT; try done.
    + by rewrite length_insert.
    + intros i0 t0 H0. destruct (decide (i = i0)) as [<-|Hne].
      * rewrite list_lookup_insert_eq in H0 by by eapply lookup_lt_Some.
        injection H0 as <-. congruence.
      * rewrite list_lookup_insert_ne in H0 by done. by apply Hjob.
    + intros i0 t0 H0 Ha. destruct (decide (i = i0)) as [<-|Hne].
      * rewrite list_lookup_insert_eq in H0 by by eapply lookup_lt_Some.
        injection H0 as <-. eauto.
      * rewrite list_lookup_insert_ne in H0 by done. eauto.
  - destruct (Hproc i t Ht Hp) as (j & Hj & Hs).
    split; cbn [jobs heap tasks calls call update]; rewrite ?Hi.
    + by rewrite length_insert, length_alter.
    + intros i0 t0 H0. destruct (decide (i = i0)) as [<-|Hne].
      * rewrite list_lookup_insert_eq in H0 by by eapply lookup_lt_Some.
        injection H0 as <-. congruence.
      * rewrite list_lookup_insert_ne in H0 by done. by apply Hjob.
    + intros k l Hg. rewrite length_alter. eapply get_set_ref in Hg; [done|done|].
      by eapply lookup_lt_Some.
    + intros l j0 Hl. destruct (decide (i = l)) as [<-|Hne].
      * rewrite list_lookup_alter_eq, Hj in Hl. injection Hl as <-. eauto.
      * rewrite list_lookup_alter_ne in Hl by done. eauto.
    + intros i0 t0 H0 Ha0. destruct (decide (i = i0)) as [<-|Hne].
      * rewrite list_lookup_insert_eq in H0 by by eapply lookup_lt_Some.
        injection H0 as <-. by rewrite Ha in Ha0.
      * rewrite list_lookup_insert_ne in H0 by done.
        rewrite list_lookup_alter_ne by done. eauto.
Qed.

(** A step of one task leaves the other tasks and their job objects alone. *)
Lemma resumeTask_frame i now r s s' :
  invariant s -> resumeTask i now r s = Some s' ->
  forall i', i' <> i ->
    tasks s' !! i' = tasks s !! i' /\ heap s' !! i' = heap s !! i'.
Proof.
  intros [_ Hjob _ _ _]. unfold resumeTask.
  destruct (tasks s !! i) as [t|] eqn:Ht; [|done]. cbn [mbind option_bind].
  destruct (resume now t r s) as [[t' s1]|] eqn:Hr; [|done].
  cbn [mbind option_bind]. intros [= <-] i' Hne.
  pose proof (Hjob i t Ht) as Hi. cbn [tasks heap].
  rewrite list_lookup_insert_ne by done.
  apply resume_cases in Hr as [_ [(Hh & _ & HT & _)|(f & -> & _)]].
  - by rewrite Hh, HT.
  - cbn [tasks heap call update]. rewrite Hi.
    by rewrite list_lookup_alter_ne.
Qed.

Lemma reachable_invariant s : reachable s -> invariant s.
Proof.
  induction 1 as [|s s' _ IH Hstep]; [apply invariant_init|].
  destruct Hstep; [by apply invariant_submit | by eapply invariant_resume].
Qed.

End Invariant.
Section WellFormed.
Import JS.

Lemma uriUnescaped_not_surrogate c :
  uriUnescaped c = true -> isLeadSurrogate c = false /\ isTrailSurrogate c = false.
Proof.
  unfold uriUnescaped, isLeadSurrogate, isTrailSurrogate. intros H.
  assert (c <= 126) by
    (repeat (apply orb_prop in H as [H|H]); try apply andb_prop in H as [_ H]; lia).
  split; apply andb_false_intro1; lia.
Qed.

Lemma lead_not_trail c : isLeadSurrogate c = true -> isTrailSurrogate c = false.
Proof. unfold isLeadSurrogate, isTrailSurrogate. lia. Qed.

Lemma encodeURIComponent_wellFormed_aux (n : nat) (s : jsstring) :
  (length s <= n)%nat ->
  is_Some (encodeURIComponent s) <-> isWellFormed s = true.
Proof.
  revert s. induction n as [|n IH]; intros [|c r] Hn; simpl in *; try done; try lia.
  destruct (uriUnescaped c) eqn:Eu.
  - destruct (uriUnescaped_not_surrogate c Eu) as [-> ->]. simpl.
    rewrite fmap_is_Some. apply IH. lia.
  - destruct (isTrailSurrogate c) eqn:Et.
    + destruct (isLeadSurrogate c) eqn:El.
      * apply lead_not_trail in El. congruence.
      * simpl. split; [by intros [? ?] | done].
    + destruct (isLeadSurrogate c) eqn:El.
      * destruct r as [|d r']; [split; [by intros [? ?] | done]|].
        destruct (isTrailSurrogate d); simpl.
        -- rewrite fmap_is_Some. apply IH. simpl in Hn. lia.
        -- split; [by intros [? ?] | done].
      * simpl. rewrite fmap_is_Some. apply IH. lia.
Qed.

Lemma encodeURIComponent_wellFormed (s : jsstring) :
  is_Some (encodeURIComponent s) <-> isWellFormed s = true.
Proof. by apply (encodeURIComponent_wellFormed_aux (length s)). Qed.

End WellFormed.

(** ** The providers *)

Section Providers.
Import JS Types Vocabulary.

(** C8. [isValidPDF] is total and never rejects. However [fs.readFile]
    settles, the promise is fulfilled with a boolean; on a file that was read
    the boolean is [true] exactly when its first five bytes are the bytes of
    '%PDF-'; on a failed read it is [false]. The Validate stage therefore
    turns a read failure into the failure 'Invalid PDF file' of the job, it
    does not reject with the error of the file system. *)
Theorem isValidPDF_total :
  (forall readFile, exists b, PDFService.isValidPDF readFile = Fulfilled b) /\
  (forall buf, exists b,
      PDFService.isValidPDF (Fulfilled buf) = Fulfilled b
      /\ (b = true <-> take 5 buf = PDFService.magic)) /\
  (forall e, PDFService.isValidPDF (Rejected e) = Fulfilled false) /\
  (forall now jobId filePath job e s,
      let t := ProcessorService.mkTask jobId filePath job
                 ProcessorService.AwaitIsValidPDF in
      ProcessorService.resume now t
        (ProcessorService.ReadFileSettled (Rejected e)) s
      = Some (ProcessorService.catchBlock now t
                (JsError (js "Invalid PDF file")) s)).
Proof.
  split; [intros [buf|e]; by eexists|].
  split; [|by split].
  intros buf. eexists. split; [reflexivity|].
  rewrite <- toString_magic. apply str_eqb_eq.
Qed.

(** C7. For every input text the provider in demo mode,
    [extractContractData] of a service without an API key or with a
    placeholder key, returns the record of [generateDemoData] without asking
    the model. That record validates against [ContractDataSchema], and its
    free-text fields say that it is demo data: the special provisions, which
    the validated record keeps, start with 'This is DEMO DATA - no real AI
    extraction was performed', the contract number is 'DEMO-2025-001', the
    summary and the template text name the demo mode. *)
Theorem demo_data_validates (contractText : jsstring) :
  let d := AIService.generateDemoData contractText in
  let flags := [js "This is DEMO DATA - no real AI extraction was performed";
                js "Configure ANTHROPIC_API_KEY in .env for real extraction"] in
  (forall remote,
      AIService.extractContractData true remote contractText = Fulfilled d) /\
  AIService.demoMode None = true /\
  AIService.demoMode (Some []) = true /\
  AIService.demoMode (Some (js "your_api_key_here")) = true /\
  Zod.validates ContractDataSchema (toObject d) = true /\
  (exists out, Zod.parse ContractDataSchema (toObject d) = Some (Zod.VObject out)
               /\ Zod.prop out (js "specialProvisions") = strings flags) /\
  specialProvisions d = Some flags /\
  contractNumber d = Some (js "DEMO-2025-001") /\
  (exists summary, aiSummary d = Some summary
                   /\ includes summary (js "This is generated demo data") = true) /\
  (exists template, templateData d = Some template
                    /\ includes template (js "DEMO TEMPLATE DATA") = true).
Proof.
  intros d flags. subst d flags.
  split; [reflexivity|].
  split; [reflexivity|]. split; [reflexivity|]. split; [reflexivity|].
  split; [reflexivity|].
  split; [eexists; split; reflexivity|].
  split; [reflexivity|]. split; [reflexivity|].
  split; eexists; (split; [reflexivity|]).
  - vm_compute. reflexivity.
  - reflexivity.
Qed.

(** C10, as the code is designed. In demo mode [createContractPage] sends
    no request: it settles at once. With a non-empty [targetUrl] it returns
    that string unchanged. Without one, or with the empty string, it returns
    the demo locator followed by [encodeURIComponent(contractTitle)], for
    every title that [encodeURIComponent] accepts, that is, every title
    without an unpaired surrogate. *)
Theorem createContractPage_demo baseUrl spaceKey parentPageId buildPageContent
    (contractData : ContractData) (targetUrl : option jsstring) :
  let this := ConfluenceService.mkService baseUrl spaceKey parentPageId true in
  exists r,
    ConfluenceService.createContractPage this buildPageContent contractData targetUrl
      = ConfluenceService.Settles r /\
    match targetUrl with
    | Some (c :: url) => r = Fulfilled (c :: url)
    | _ =>
        isWellFormed (contractTitle contractData) = true ->
        exists component,
          encodeURIComponent (contractTitle contractData) = Some component
          /\ r = Fulfilled (ConfluenceService.demoUrlPrefix ++ component)
    end.
Proof.
  intros this. subst this. unfold ConfluenceService.createContractPage.
  cbn [ConfluenceService.demoMode].
  assert (Hdemo : exists r,
    match encodeURIComponent (contractTitle contractData) with
    | Some component =>
        ConfluenceService.Settles (Fulfilled (ConfluenceService.demoUrlPrefix ++ component))
    | None => ConfluenceService.Settles (Rejected URIError)
    end = ConfluenceService.Settles r /\
    (isWellFormed (contractTitle contractData) = true ->
     exists component,
       encodeURIComponent (contractTitle contractData) = Some component
       /\ r = Fulfilled (ConfluenceService.demoUrlPrefix ++ component))).
  { pose proof (encodeURIComponent_wellFormed (contractTitle contractData)) as Hw.
    destruct (encodeURIComponent (contractTitle contractData)) as [component|].
    - eexists. split; [done|]. intros _. by eexists.
    - eexists. split; [done|]. intros Hwf.
      destruct (proj2 Hw Hwf) as [? ?]. done. }
  destruct targetUrl as [[|c url]|]; cbn [truthy]; try done.
  eexists. by split.
Qed.

Lemma createContractPage_demo_witness :
  isWellFormed (contractTitle (AIService.generateDemoData (js "Lease"))) = true /\
  exists r,
    ConfluenceService.createContractPage demoService (fun _ => [])
      (AIService.generateDemoData (js "Lease")) None
    = ConfluenceService.Settles r /\
    exists component,
      encodeURIComponent (contractTitle (AIService.generateDemoData (js "Lease")))
      = Some component
      /\ r = Fulfilled (ConfluenceService.demoUrlPrefix ++ component).
Proof.
  assert (isWellFormed (contractTitle (AIService.generateDemoData (js "Lease")))
          = true) as Hwf by reflexivity.
  split; [exact Hwf|].
  destruct (createContractPage_demo [] [] None (fun _ => [])
              (AIService.generateDemoData (js "Lease")) None) as (r & Hr & Hurl).
  exists r. split; [exact Hr|]. exact (Hurl Hwf).
Defined.

(** C10, as stated, fails on a target that is given but empty: it is not
    returned, the demo locator is. *)
Lemma createContractPage_demo_counterexample :
  ConfluenceService.createContractPage demoService (fun _ => [])
      (AIService.generateDemoData (js "Lease")) (Some [])
    = ConfluenceService.Settles
        (Fulfilled (ConfluenceService.demoUrlPrefix ++ js "Lease")) /\
  ConfluenceService.createContractPage demoService (fun _ => [])
      (AIService.generateDemoData (js "Lease")) (Some [])
    <> ConfluenceService.Settles (Fulfilled []).
Proof.
  split; [vm_compute; reflexivity|vm_compute; discriminate].
Qed.

(** An edge the code does not handle. For the title that [generateDemoData]
    makes of a first line whose hundredth code unit is the first half of a
    surrogate pair, [encodeURIComponent] throws and the call rejects with
    its URIError: no locator is returned, although the comment of line 60
    and the documented result promise one. *)
Lemma createContractPage_unencodable_title :
  isWellFormed (contractTitle (AIService.generateDemoData astralText)) = false /\
  ConfluenceService.createContractPage demoService (fun _ => [])
      (AIService.generateDemoData astralText) None
    = ConfluenceService.Settles (Rejected URIError) /\
  (forall url,
      ConfluenceService.createContractPage demoService (fun _ => [])
        (AIService.generateDemoData astralText) None
      <> ConfluenceService.Settles (Fulfilled url)).
Proof.
  assert (H : ConfluenceService.createContractPage demoService (fun _ => [])
                (AIService.generateDemoData astralText) None
              = ConfluenceService.Settles (Rejected URIError))
    by (vm_compute; reflexivity).
  split; [vm_compute; reflexivity|].
  split; [exact H|]. intros url. rewrite H. discriminate.
Qed.

End Providers.

(** ** The pipeline *)

Section Pipeline.
Import JS Types ProcessorService Vocabulary.

Ltac resume_goal :=
  unfold resume, afterValidation;
  cbn [at_ answer suspend jobId filePath job pending_call];
  repeat match goal with
         | E : ?x = _ |- context [?x] => rewrite E
         end;
  try rewrite catchBlock_last by (reflexivity || apply get_set_eq);
  try rewrite update_last by (reflexivity || apply get_set_eq);
  unfold call, suspend; cbn [jobs heap tasks calls jobId filePath job];
  try rewrite lookup_last; cbn [mbind option_bind targetConfluenceUrl];
  reflexivity.

Ltac run_one :=
  erewrite run_step; [ | reflexivity | resume_goal ];
  cbn [suspend jobId filePath job at_].

Ltac finish :=
  rewrite run_returned by reflexivity;
  cbn [jobs heap tasks calls];
  repeat match goal with
         | E : ?x = _ |- context [?x] => rewrite E
         end;
  do 2 eexists;
  split; [apply lookup_last|];
  split; [apply get_set_eq|];
  split; [apply lookup_last|];
  split; [|split; reflexivity];
  cbn [fmap list_fmap app]; rewrite <- ?app_assoc; reflexivity.

(** C1. For every submitted job and every behaviour of the providers, the run
    returns and the calls it makes are, in this order, the validation, the
    text extraction, the structured extraction and the publication, each one
    made only when the one before succeeded, and then the removal of the
    upload. When a stage rejects, no later stage is called and the job is
    'failed' with the message of the error (a validation that answers [false]
    gives 'Invalid PDF file'); when all succeed the job is 'completed' with
    [completedAt], [contractData] and [confluencePageUrl] set. *)
Theorem pipeline_runs_stages_in_order P uuid now filePath filename target s :
  let s' := submitAndRun P uuid now filePath filename target s in
  let l := length (heap s) in
  exists j stages,
    tasks s' !! length (tasks s) = Some (mkTask uuid filePath l Returned) /\
    get (jobs s') uuid = Some l /\
    heap s' !! l = Some j /\
    calls s' = calls s ++ ((uuid,.) <$> stages ++ [Unlink filePath]) /\
    match PDFService.isValidPDF (readFile P filePath) with
    | Fulfilled true =>
        match extractText P filePath with
        | Fulfilled text =>
            match extractContractData P text with
            | Fulfilled data =>
                match createContractPage P data target with
                | Fulfilled url =>
                    stages = [IsValidPDF filePath; ExtractText filePath;
                              ExtractContractData text;
                              CreateContractPage data target] /\
                    j = mkJob uuid filename completed now (Some (clock P 3))
                              None (Some data) (Some url) target
                | Rejected e =>
                    stages = [IsValidPDF filePath; ExtractText filePath;
                              ExtractContractData text;
                              CreateContractPage data target] /\
                    j = mkJob uuid filename failed now (Some (clock P 3))
                              (Some (messageOf e)) None None target
                end
            | Rejected e =>
                stages = [IsValidPDF filePath; ExtractText filePath;
                          ExtractContractData text] /\
                j = mkJob uuid filename failed now (Some (clock P 2))
                          (Some (messageOf e)) None None target
            end
        | Rejected e =>
            stages = [IsValidPDF filePath; ExtractText filePath] /\
            j = mkJob uuid filename failed now (Some (clock P 1))
                      (Some (messageOf e)) None None target
        end
    | _ =>
        stages = [IsValidPDF filePath] /\
        j = mkJob uuid filename failed now (Some (clock P 0))
                  (Some (js "Invalid PDF file")) None None target
    end.
Proof.
  intros s' l. subst s' l. unfold submitAndRun.
  rewrite processContract_state.
  destruct (PDFService.isValidPDF (readFile P filePath)) as [[|]|e] eqn:Ev.
  - run_one.
    destruct (extractText P filePath) as [text|e] eqn:Et.
    + run_one.
      destruct (extractContractData P text) as [data|e] eqn:Ed.
      * run_one.
        destruct (createContractPage P data target) as [url|e] eqn:Ep.
        -- run_one. run_one. finish.
        -- run_one. run_one. finish.
      * run_one. run_one. finish.
    + run_one. run_one. finish.
  - run_one. run_one. finish.
  - exfalso. destruct (readFile P filePath); discriminate.
Qed.


(** C3, as the code has it. [processContract] returns the id it generated
    without any reply of a provider. The job object is created with status
    'pending' and stored under that id (lines 32-40), but it does not stay
    so until the return: the run of [executeProcessing] that the call then
    starts executes up to its first [await] inside the call, so that when
    the id is handed back the same object has status 'processing', the
    validation has been called and nothing else. The id is valid for
    [getJobStatus] at once; one job object is created, the objects already
    there are untouched, and the Map receives one key, unless the id was
    already in use. *)
Theorem processContract_registers_job uuid now filePath filename target s :
  let created := createJob uuid now filename target s in
  let result := processContract uuid now filePath filename target s in
  let l := length (heap s) in
  result.1 = uuid /\
  get (jobs created) uuid = Some l /\
  heap created !! l
    = Some (mkJob uuid filename pending now None None None None target) /\
  result.2 = executeProcessing uuid filePath created /\
  getJobStatus uuid result.2 = (Some l, result.2) /\
  heap result.2 !! l
    = Some (mkJob uuid filename processing now None None None None target) /\
  length (heap result.2) = S (length (heap s)) /\
  take l (heap result.2) = heap s /\
  keys (jobs result.2)
    = match get (jobs s) uuid with
      | Some _ => keys (jobs s)
      | None => keys (jobs s) ++ [uuid]
      end /\
  tasks result.2 = tasks s ++ [mkTask uuid filePath l AwaitIsValidPDF] /\
  calls result.2 = calls s ++ [(uuid, IsValidPDF filePath)].
Proof.
  intros created result l. subst created result l.
  split; [done|]. split; [apply get_set_eq|]. split; [apply lookup_last|].
  split; [done|]. rewrite processContract_state.
  unfold getJobStatus. cbn [jobs heap tasks calls]. rewrite get_set_eq.
  split; [done|]. split; [apply lookup_last|].
  split; [rewrite length_app; simpl; lia|].
  split; [by rewrite take_app_length|].
  split; [|done].
  destruct (get (jobs s) uuid) eqn:E.
  - by apply keys_set_present.
  - by apply keys_set_fresh.
Qed.

(** C3, as stated, fails: the record that a status query finds when the id
    has been handed back is not 'pending'. It is 'processing', and the first
    stage of the pipeline has been called. *)
Lemma processContract_pending_counterexample :
  (processContract (js "job-1") 0 (js "uploads/a.pdf") (js "a.pdf") None
                   constructor).1 = js "job-1" /\
  ((getJobStatus (js "job-1")
      (processContract (js "job-1") 0 (js "uploads/a.pdf") (js "a.pdf") None
                       constructor).2).1
   ≫= (heap (processContract (js "job-1") 0 (js "uploads/a.pdf") (js "a.pdf")
                              None constructor).2 !!.))
  = Some (mkJob (js "job-1") (js "a.pdf") processing 0 None None None None None) /\
  (status <$>
     ((getJobStatus (js "job-1")
         (processContract (js "job-1") 0 (js "uploads/a.pdf") (js "a.pdf") None
                          constructor).2).1
      ≫= (heap (processContract (js "job-1") 0 (js "uploads/a.pdf") (js "a.pdf")
                                 None constructor).2 !!.)))
  <> Some pending /\
  calls (processContract (js "job-1") 0 (js "uploads/a.pdf") (js "a.pdf") None
                         constructor).2
  = [(js "job-1", IsValidPDF (js "uploads/a.pdf"))].
Proof.
  split; [reflexivity|]. split; [reflexivity|].
  split; [vm_compute; discriminate|reflexivity].
Qed.

(** C4, as the code has it. When the validation of the payload answers
    [false], the job is 'failed' with the reason 'Invalid PDF file', and the
    only calls of the run are the validation and the removal of the upload:
    neither the text extraction, nor the structured extraction, nor the
    publication is called. *)
Theorem invalid_pdf_fails_before_providers P uuid now filePath filename target s :
  PDFService.isValidPDF (readFile P filePath) = Fulfilled false ->
  let s' := submitAndRun P uuid now filePath filename target s in
  get (jobs s') uuid = Some (length (heap s)) /\
  heap s' !! length (heap s)
    = Some (mkJob uuid filename failed now (Some (clock P 0))
                  (Some (js "Invalid PDF file")) None None target) /\
  calls s' = calls s ++ [(uuid, IsValidPDF filePath); (uuid, Unlink filePath)].
Proof.
  intros Ev s'. subst s'. unfold submitAndRun.
  rewrite processContract_state. run_one. run_one.
  rewrite run_returned by reflexivity. cbn [jobs heap tasks calls].
  split; [apply get_set_eq|]. split; [apply lookup_last|].
  by rewrite <- app_assoc.
Qed.

Lemma invalid_pdf_fails_before_providers_witness :
  PDFService.isValidPDF (readFile (demoProviders textFile []) (js "uploads/a.pdf"))
    = Fulfilled false /\
  get (jobs (submitAndRun (demoProviders textFile []) (js "job-1") 0
               (js "uploads/a.pdf") (js "a.pdf") None constructor)) (js "job-1")
    = Some 0%nat /\
  heap (submitAndRun (demoProviders textFile []) (js "job-1") 0
          (js "uploads/a.pdf") (js "a.pdf") None constructor) !! 0%nat
    = Some (mkJob (js "job-1") (js "a.pdf") failed 0 (Some 1000)
                  (Some (js "Invalid PDF file")) None None None) /\
  calls (submitAndRun (demoProviders textFile []) (js "job-1") 0
           (js "uploads/a.pdf") (js "a.pdf") None constructor)
    = [(js "job-1", IsValidPDF (js "uploads/a.pdf"));
       (js "job-1", Unlink (js "uploads/a.pdf"))].
Proof.
  split; [reflexivity|].
  apply (invalid_pdf_fails_before_providers (demoProviders textFile [])
           (js "job-1") 0 (js "uploads/a.pdf") (js "a.pdf") None constructor).
  reflexivity.
Defined.

(** C4, as stated, fails: the reason recorded for a payload without the
    signature is 'Invalid PDF file', not 'invalid document'. *)
Lemma invalid_pdf_reason_counterexample :
  PDFService.isValidPDF (Fulfilled textFile) = Fulfilled false /\
  (heap (submitAndRun (demoProviders textFile []) (js "job-1") 0
           (js "uploads/a.pdf") (js "a.pdf") None constructor) !! 0%nat
     ≫= error) = Some (js "Invalid PDF file") /\
  (heap (submitAndRun (demoProviders textFile []) (js "job-1") 0
           (js "uploads/a.pdf") (js "a.pdf") None constructor) !! 0%nat
     ≫= error) <> Some (js "invalid document").
Proof. split; [reflexivity|]. split; [reflexivity|]. vm_compute. discriminate. Qed.

End Pipeline.

(** ** The registry *)

Section Registry.
Import JS Types ProcessorService Vocabulary.

Lemma run_reachable P fuel n i s : reachable s -> reachable (run P fuel n i s).
Proof.
  revert n s. induction fuel as [|fuel IH]; intros n s Hs; [done|]. simpl.
  destruct (tasks s !! i ≫= pending_call) as [c|]; [|done].
  destruct (resumeTask i (clock P n) (answer P c) s) as [s'|] eqn:E; [|done].
  apply IH. eapply reachable_step; [done|]. by eapply step_resume.
Qed.

Lemma submitAndRun_reachable P uuid now filePath filename target s :
  reachable s -> reachable (submitAndRun P uuid now filePath filename target s).
Proof.
  intros Hs. apply run_reachable. eapply reachable_step; [done|].
  apply step_submit.
Qed.

(** C2. In every state the service can reach, that is after any number of
    submissions and of steps of their runs in any interleaving, every job of
    the registry has [contractData] and [confluencePageUrl] exactly when its
    status is 'completed' and [error] exactly when its status is 'failed';
    no job has an error together with a result. *)
Theorem job_fields_match_status s jobId l :
  reachable s -> get (jobs s) jobId = Some l ->
  exists j,
    heap s !! l = Some j /\
    (is_Some (contractData j) <-> status j = completed) /\
    (is_Some (confluencePageUrl j) <-> status j = completed) /\
    (is_Some (error j) <-> status j = failed) /\
    ~ (is_Some (error j)
       /\ (is_Some (contractData j) \/ is_Some (confluencePageUrl j))).
Proof.
  intros Hs Hg. apply reachable_invariant in Hs as [_ _ Href Hcons _].
  apply Href in Hg. apply lookup_lt_is_Some in Hg as [j Hj].
  exists j. split; [done|]. destruct (Hcons l j Hj) as (H1 & H2 & H3).
  repeat split; try apply H1; try apply H2; try apply H3.
  intros [He [Hd|Hu]]; apply H3 in He; [apply H1 in Hd | apply H2 in Hu];
    congruence.
Qed.

Lemma job_fields_match_status_witness :
  reachable (submitAndRun (demoProviders pdfFile (js "Service Agreement"))
               (js "job-1") 0 (js "uploads/a.pdf") (js "a.pdf") None constructor) /\
  get (jobs (submitAndRun (demoProviders pdfFile (js "Service Agreement"))
               (js "job-1") 0 (js "uploads/a.pdf") (js "a.pdf") None constructor))
      (js "job-1") = Some 0%nat /\
  exists j,
    heap (submitAndRun (demoProviders pdfFile (js "Service Agreement"))
            (js "job-1") 0 (js "uploads/a.pdf") (js "a.pdf") None constructor)
      !! 0%nat = Some j /\
    (is_Some (contractData j) <-> status j = completed) /\
    (is_Some (confluencePageUrl j) <-> status j = completed) /\
    (is_Some (error j) <-> status j = failed) /\
    ~ (is_Some (error j)
       /\ (is_Some (contractData j) \/ is_Some (confluencePageUrl j))).
Proof.
  split; [apply submitAndRun_reachable, reachable_init|].
  split; [reflexivity|].
  apply (job_fields_match_status _ (js "job-1") 0%nat).
  - apply submitAndRun_reachable, reachable_init.
  - reflexivity.
Defined.

(** The status route shows the result fields of a job exactly when the job
    is 'completed' and its error exactly when it is 'failed'. *)
Lemma getStatus_fields s jobId l j :
  reachable s -> get (jobs s) jobId = Some l -> heap s !! l = Some j ->
  exists fields,
    (ContractRoutes.getStatus jobId s).1
      = Http.mkResponse 200 (Zod.VObject fields) /\
    (Zod.hasKey fields (js "contractData") = true <-> status j = completed) /\
    (Zod.hasKey fields (js "confluencePageUrl") = true <-> status j = completed) /\
    (Zod.hasKey fields (js "error") = true <-> status j = failed).
Proof.
  intros Hs Hg Hj. apply reachable_invariant in Hs as [_ _ _ Hcons _].
  destruct (Hcons l j Hj) as (H1 & H2 & H3).
  unfold ContractRoutes.getStatus, getJobStatus. rewrite Hg. cbn [mbind option_bind].
  rewrite Hj. eexists. split; [reflexivity|].
  assert (Hd : status j = completed -> exists d u,
               contractData j = Some d /\ confluencePageUrl j = Some u).
  { intros E. destruct (proj2 H1 E) as [d ?], (proj2 H2 E) as [u ?]. eauto. }
  assert (He : status j = failed -> exists m, error j = Some m).
  { intros E. destruct (proj2 H3 E) as [m ?]. eauto. }
  destruct (completedAt j), (status j).
  all: try destruct (Hd eq_refl) as (data & url & -> & ->).
  all: try destruct (He eq_refl) as (msg & ->).
  all: repeat split; intros H;
    first [ discriminate H | reflexivity | vm_compute in H; discriminate H
          | vm_compute; reflexivity ].
Qed.

(** C9. [getJobStatus] and [getAllJobs] leave the state of the service as it
    is: the Map, every job object, the runs and the log; so do the two
    routes that call them. *)
Theorem status_queries_read_only (s : State) (jobId : jsstring) :
  (getJobStatus jobId s).2 = s /\
  (getAllJobs s).2 = s /\
  (ContractRoutes.getStatus jobId s).2 = s /\
  (ContractRoutes.getJobs s).2 = s.
Proof.
  repeat split; try reflexivity.
  unfold ContractRoutes.getStatus, getJobStatus.
  by destruct (get (jobs s) jobId ≫= (heap s !!.)).
Qed.

End Registry.

(** ** The submission route *)

Section Submission.
Import JS Types Http ProcessorService ContractRoutes Vocabulary.

(** C6, on the code. The response of [POST /process] in each case. Without
    a file part, or with a part whose file name is empty, it is 400 and no
    job is created; with a named PDF below the size limit it is 202 with the
    job id and the status URL. For a file of another type it is 500, not
    400: the error of the file filter reaches the error handler of index.ts,
    which answers 500 to an error without a [status]; [errorHandler] of
    error.middleware.ts, which answers 400 to this error, is not mounted. A
    file in another field and a PDF that reaches the size limit are answered
    500 as well. No job is created in any of these cases. *)
Theorem post_process_responses :
  (forall fileSize path uuid now req s,
      let result := Index.post_process fileSize path uuid now req s in
      match filePart req with
      | None =>
          result = (mkResponse 400 (Zod.VObject
                      [(js "error", Zod.VString (js "No file uploaded"))]), s)
      | Some part =>
          if str_eqb (originalname part) []
          then result
               = (mkResponse 400 (Zod.VObject
                    [(js "error", Zod.VString (js "No file uploaded"))]), s)
          else if negb (str_eqb (fieldname part) (js "contract"))
          then statusCode result.1 = 500 /\ result.2 = s
          else if negb (str_eqb (mimetype part) (js "application/pdf"))
          then result
               = (mkResponse 500 (Zod.VObject
                    [(js "error", Zod.VString (js "Only PDF files are allowed"))]), s)
               /\ forall maxFileSize nodeEnv,
                    statusCode (ErrorMiddleware.errorHandler maxFileSize nodeEnv
                                  (PlainError (js "Only PDF files are allowed")))
                    = 400
          else if fileSize <=? size part
          then statusCode result.1 = 500 /\ result.2 = s
          else result
               = (mkResponse 202 (Zod.VObject
                    [(js "message", Zod.VString (js "Contract processing started"));
                     (js "jobId", Zod.VString uuid);
                     (js "statusUrl",
                      Zod.VString (js "/api/contracts/" ++ uuid ++ js "/status"))]),
                  (processContract uuid now path (originalname part) None s).2)
      end) /\
  (* a text file in the field 'contract' *)
  Index.post_process 10485760 (js "uploads/contract-1.txt") (js "job-1") 0
    (mkRequest (Some (mkFilePart (js "contract") (js "notes.txt")
                        (js "text/plain") 120)) [])
    constructor
  = (mkResponse 500 (Zod.VObject
       [(js "error", Zod.VString (js "Only PDF files are allowed"))]),
     constructor).
Proof.
  split; [|reflexivity].
  intros fileSize path uuid now req s result. subst result.
  unfold Index.post_process, upload_single.
  destruct (filePart req) as [part|]; [|done].
  destruct (str_eqb (originalname part) []); [done|].
  destruct (str_eqb (fieldname part) (js "contract")); simpl; [|done].
  unfold fileFilter.
  destruct (str_eqb (mimetype part) (js "application/pdf")); simpl; [|done].
  destruct (fileSize <=? size part); simpl; done.
Qed.

(** C5, on the code. The route never reads the fields of the body: the
    response and the state after [POST /process] are the same whatever the
    fields are. For an upload sent with [publishTarget], the job has no
    [targetConfluenceUrl] and the publication is called without a target, so
    that the page of the completed job is the demo locator and not the
    target asked for. *)
Theorem post_process_drops_publishTarget :
  (forall fileSize path uuid now file fields fields' s,
      Index.post_process fileSize path uuid now (mkRequest file fields) s
      = Index.post_process fileSize path uuid now (mkRequest file fields') s) /\
  (let request :=
     mkRequest (Some (mkFilePart (js "contract") (js "lease.pdf")
                        (js "application/pdf") 2048))
               [(js "publishTarget", js "https://wiki.example.com/x/lease")] in
   let posted :=
     Index.post_process 10485760 (js "uploads/contract-1.pdf") (js "job-1") 0
                        request constructor in
   let s' := run (demoProviders pdfFile (js "Lease")) 5 0 0 posted.2 in
   statusCode posted.1 = 202 /\
   (heap s' !! 0%nat ≫= targetConfluenceUrl) = None /\
   (status <$> heap s' !! 0%nat) = Some completed /\
   (heap s' !! 0%nat ≫= confluencePageUrl)
     = Some (ConfluenceService.demoUrlPrefix ++ js "Lease") /\
   last (calls s') = Some (js "job-1", Unlink (js "uploads/contract-1.pdf")) /\
   calls s' !! 3%nat
     = Some (js "job-1",
             CreateContractPage (AIService.generateDemoData (js "Lease")) None)).
Proof.
  split; [done|]. vm_compute. repeat split; reflexivity.
Qed.

End Submission.

(** ** The lifecycle of the jobs *)

Section LifecycleFacts.
Import JS Types ProcessorService Vocabulary Lifecycle.

Lemma get_set_is_Some {V} (m : Map V) k v k' :
  is_Some (get m k') -> is_Some (get (set m k v) k').
Proof.
  intros H. destruct (decide (k = k')) as [->|Hne].
  - rewrite get_set_eq. by eexists.
  - by rewrite get_set_ne.
Qed.

(** What a step of a task does: it leaves the heap and the Map alone and
    stays on its side of the pipeline, or it leaves the pipeline and writes
    the terminal fields of its job. *)
Lemma resume_effect now t r s t' s' :
  resume now t r s = Some (t', s') ->
  jobId t' = jobId t /\ job t' = job t /\
  ((heap s' = heap s /\ jobs s' = jobs s /\ tasks s' = tasks s /\
    (inPipeline (at_ t') <-> inPipeline (at_ t)))
   \/ (exists f, s' = call t (Unlink (filePath t)) (update t f s) /\
       at_ t' = AwaitUnlink /\ inPipeline (at_ t) /\
       ((exists m, f = setFailed now m)
        \/ (exists d u, f = setCompleted now d u)))).
Proof.
  unfold resume, afterValidation, catchBlock.
  destruct (at_ t) eqn:Ea, r as [r|r|r|r|r]; try done;
    try destruct r as [?|?]; try destruct (PDFService.isValidPDF _) as [[|]|?];
    intros [= <- <-]; (split; [done|]); (split; [done|]); simpl;
    first [ left; by rewrite ?Ea
          | right; eexists; split; [reflexivity|]; rewrite ?Ea; eauto 6 ].
Qed.

Lemma lifecycle_init : lifecycle constructor.
Proof. split; simpl; done || apply invariant_init. Qed.

Lemma lifecycle_submit uuid now filePath filename target s :
  lifecycle s ->
  lifecycle (processContract uuid now filePath filename target s).2.
Proof.
  intros [Hinv Hst Hca Hfin Htid Htk Hkid].
  pose proof (invariant_submit uuid now filePath filename target s Hinv) as Hinv'.
  destruct Hinv as [Hlen Hjob Href _ _].
  split; [done|..]; rewrite processContract_state; cbn [jobs heap tasks calls].
  - intros l j Hl. apply lookup_app_Some in Hl as [Hl|[_ Hl]]; [by eapply Hst|].
    destruct (l - length (heap s))%nat; [|done]. by injection Hl as <-.
  - intros l j Hl. apply lookup_app_Some in Hl as [Hl|[_ Hl]]; [by eapply Hca|].
    destruct (l - length (heap s))%nat; [|done]. injection Hl as <-. simpl.
    unfold terminal. split; [by intros [? ?] | by intros [?|?]].
  - intros i t j Ht Hj Hp.
    apply lookup_app_Some in Ht as [Ht|[Hi Ht]].
    + apply lookup_lt_Some in Ht as Hlt.
      rewrite lookup_app_l in Hj by lia. eauto.
    + destruct (i - length (tasks s))%nat; [|done]. injection Ht as <-.
      by destruct Hp.
  - intros i t j Ht Hj.
    apply lookup_app_Some in Ht as [Ht|[Hi Ht]].
    + apply lookup_lt_Some in Ht as Hlt.
      rewrite lookup_app_l in Hj by lia. eauto.
    + destruct (i - length (tasks s))%nat eqn:E; [|done]. injection Ht as <-.
      assert (i = length (heap s)) as -> by lia.
      rewrite lookup_last in Hj. by injection Hj as <-.
  - intros i t Ht.
    apply lookup_app_Some in Ht as [Ht|[Hi Ht]]; [apply get_set_is_Some; eauto|].
    destruct (i - length (tasks s))%nat; [|done]. injection Ht as <-. simpl.
    rewrite get_set_eq. by eexists.
  - intros k l j Hg Hj. destruct (decide (uuid = k)) as [<-|Hne].
    + rewrite get_set_eq in Hg. injection Hg as <-.
      rewrite lookup_last in Hj. by injection Hj as <-.
    + rewrite get_set_ne in Hg by done. pose proof (Href _ _ Hg).
      rewrite lookup_app_l in Hj by done. eauto.
Qed.

Lemma lifecycle_resume i now r s s' :
  lifecycle s -> resumeTask i now r s = Some s' -> lifecycle s'.
Proof.
  intros [Hinv Hst Hca Hfin Htid Htk Hkid] Hres.
  pose proof (invariant_resume i now r s s' Hinv Hres) as Hinv'.
  destruct Hinv as [Hlen Hjob Href Hcons Hproc].
  split; [done|..]; revert Hres; unfold resumeTask;
    (destruct (tasks s !! i) as [t|] eqn:Ht; [|done]); cbn [mbind option_bind];
    (destruct (resume now t r s) as [[t' s1]|] eqn:Hr; [|done]);
    cbn [mbind option_bind]; intros [= <-];
    pose proof (Hjob i t Ht) as Hi;
    apply resume_effect in Hr
      as (Hid & Hj' & [(Hh & HJ & HT & Hp)|(f & -> & Ha & Hp & Hf)]);
    cbn [jobs heap tasks calls call update]; rewrite ?Hh, ?HJ, ?HT, ?Hi.
  - eauto.
  - intros l j Hl. destruct (decide (i = l)) as [<-|Hne].
    + rewrite list_lookup_alter_eq in Hl.
      destruct (heap s !! i) as [j0|]; [|done]. injection Hl as <-.
      by destruct Hf as [[m ->]|(d & u & ->)].
    + rewrite list_lookup_alter_ne in Hl by done. eauto.
  - eauto.
  - intros l j Hl. destruct (decide (i = l)) as [<-|Hne].
    + rewrite list_lookup_alter_eq in Hl.
      destruct (heap s !! i) as [j0|]; [|done]. injection Hl as <-.
      unfold terminal.
      destruct Hf as [[m ->]|(d & u & ->)]; simpl; split; eauto.
    + rewrite list_lookup_alter_ne in Hl by done. eauto.
  - intros i0 t0 j H0 Hj Hn. destruct (decide (i = i0)) as [<-|Hne].
    + rewrite list_lookup_insert_eq in H0 by by eapply lookup_lt_Some.
      injection H0 as <-. eapply Hfin; [done|done|]. by rewrite <- Hp.
    + rewrite list_lookup_insert_ne in H0 by done. eauto.
  - intros i0 t0 j H0 Hj Hn. destruct (decide (i = i0)) as [<-|Hne].
    + rewrite list_lookup_alter_eq in Hj.
      destruct (heap s !! i) as [j0|]; [|done]. injection Hj as <-.
      unfold terminal. destruct Hf as [[m ->]|(d & u & ->)]; simpl; eauto.
    + rewrite list_lookup_insert_ne in H0 by done.
      rewrite list_lookup_alter_ne in Hj by done. eauto.
  - intros i0 t0 j H0 Hj. destruct (decide (i = i0)) as [<-|Hne].
    + rewrite list_lookup_insert_eq in H0 by by eapply lookup_lt_Some.
      injection H0 as <-. rewrite Hid. eauto.
    + rewrite list_lookup_insert_ne in H0 by done. eauto.
  - intros i0 t0 j H0 Hj. destruct (decide (i = i0)) as [<-|Hne].
    + rewrite list_lookup_insert_eq in H0 by by eapply lookup_lt_Some.
      injection H0 as <-. rewrite Hid.
      rewrite list_lookup_alter_eq in Hj.
      destruct (heap s !! i) as [j0|] eqn:E0; [|done]. injection Hj as <-.
      transitivity (id j0); [|eauto].
      by destruct Hf as [[m ->]|(d & u & ->)].
    + rewrite list_lookup_insert_ne in H0 by done.
      rewrite list_lookup_alter_ne in Hj by done. eauto.
  - intros i0 t0 H0. destruct (decide (i = i0)) as [<-|Hne].
    + rewrite list_lookup_insert_eq in H0 by by eapply lookup_lt_Some.
      injection H0 as <-. rewrite Hid. eauto.
    + rewrite list_lookup_insert_ne in H0 by done. eauto.
  - intros i0 t0 H0. apply get_set_is_Some.
    destruct (decide (i = i0)) as [<-|Hne].
    + rewrite list_lookup_insert_eq in H0 by by eapply lookup_lt_Some.
      injection H0 as <-. rewrite Hid. eauto.
    + rewrite list_lookup_insert_ne in H0 by done. eauto.
  - eauto.
  - intros k l j Hg Hl. destruct (decide (jobId t = k)) as [<-|Hne].
    + rewrite get_set_eq in Hg. injection Hg as <-.
      rewrite list_lookup_alter_eq in Hl.
      destruct (heap s !! i) as [j0|] eqn:E0; [|done]. injection Hl as <-.
      transitivity (id j0); [|eauto].
      by destruct Hf as [[m ->]|(d & u & ->)].
    + rewrite get_set_ne in Hg by done.
      destruct (decide (i = l)) as [<-|Hne'].
      * rewrite list_lookup_alter_eq in Hl.
        destruct (heap s !! i) as [j0|] eqn:E0; [|done]. injection Hl as <-.
        transitivity (id j0); [|eauto].
        by destruct Hf as [[m ->]|(d & u & ->)].
      * rewrite list_lookup_alter_ne in Hl by done. eauto.
Qed.

Lemma reachable_lifecycle s : reachable s -> lifecycle s.
Proof.
  induction 1 as [|s s' _ IH Hstep]; [apply lifecycle_init|].
  destruct Hstep; [by apply lifecycle_submit | by eapply lifecycle_resume].
Qed.

End LifecycleFacts.

Section LifecycleProperties.
Import JS Types ProcessorService Vocabulary Lifecycle.

(** A state with one completed job, for the witnesses. *)
Lemma demo_reachable :
  reachable (submitAndRun (demoProviders pdfFile (js "Lease")) (js "job-1") 0
               (js "uploads/a.pdf") (js "a.pdf") None constructor).
Proof. apply submitAndRun_reachable, reachable_init. Qed.

(** X1. No job of the registry is ever seen 'pending': a job is filed under
    its own id, and because its run starts inside [processContract] its
    status is 'processing', 'completed' or 'failed' whenever other code can
    look at it. *)
Theorem registered_job_is_started s k l :
  reachable s -> get (jobs s) k = Some l ->
  exists j, heap s !! l = Some j /\ id j = k /\ status j <> pending.
Proof.
  intros Hs Hg. apply reachable_lifecycle in Hs as [[_ _ Href _ _] Hst _ _ _ _ Hkid].
  pose proof (Href _ _ Hg) as Hl. apply lookup_lt_is_Some in Hl as [j Hj].
  exists j. eauto.
Qed.

Lemma registered_job_is_started_witness :
  exists j,
    heap (submitAndRun (demoProviders pdfFile (js "Lease")) (js "job-1") 0
            (js "uploads/a.pdf") (js "a.pdf") None constructor) !! 0%nat = Some j
    /\ id j = js "job-1" /\ status j <> pending.
Proof.
  apply (registered_job_is_started
           (submitAndRun (demoProviders pdfFile (js "Lease")) (js "job-1") 0
              (js "uploads/a.pdf") (js "a.pdf") None constructor)
           (js "job-1") 0%nat).
  - apply demo_reachable.
  - reflexivity.
Defined.

(** X2. [completedAt] is set exactly on the jobs that are 'completed' or
    'failed'. *)
Theorem completedAt_iff_terminal s l j :
  reachable s -> heap s !! l = Some j ->
  (is_Some (completedAt j) <-> status j = completed \/ status j = failed).
Proof.
  intros Hs Hj. apply reachable_lifecycle in Hs as [_ _ Hca _ _ _ _].
  by apply (Hca l j).
Qed.

Lemma completedAt_iff_terminal_witness :
  is_Some (Some 1003) <-> completed = completed \/ completed = failed.
Proof.
  apply (completedAt_iff_terminal
           (submitAndRun (demoProviders pdfFile (js "Lease")) (js "job-1") 0
              (js "uploads/a.pdf") (js "a.pdf") None constructor)
           0%nat
           (mkJob (js "job-1") (js "a.pdf") completed 0 (Some 1003) None
              (Some (AIService.generateDemoData (js "Lease")))
              (Some (js "https://demo.confluence.com/wiki/spaces/DEMO/pages/123456/Lease"))
              None)).
  - apply demo_reachable.
  - reflexivity.
Defined.

(** X3. A step of the service, a submission or a step of any run, leaves
    every job object in place, and either as it is or, when its status was
    'processing', with a terminal status: a completed or failed job is never
    written again. The id, the file name, the creation time and the target
    of a job never change. *)
Theorem job_changes_once s s' l j :
  reachable s -> step s s' -> heap s !! l = Some j ->
  exists j',
    heap s' !! l = Some j' /\
    id j' = id j /\ filename j' = filename j /\ createdAt j' = createdAt j /\
    targetConfluenceUrl j' = targetConfluenceUrl j /\
    (j' = j \/ (status j = processing
                /\ (status j' = completed \/ status j' = failed))).
Proof.
  intros Hs Hstep Hj. apply reachable_invariant in Hs as [_ Hjob _ _ Hproc].
  destruct Hstep as [uuid now filePath filename0 target s|i now r s s' Hres].
  - rewrite processContract_state. cbn [heap]. exists j.
    split; [by apply lookup_app_l_Some|]. eauto 10.
  - revert Hres. unfold resumeTask.
    destruct (tasks s !! i) as [t|] eqn:Ht; [|done]. cbn [mbind option_bind].
    destruct (resume now t r s) as [[t' s1]|] eqn:Hr; [|done].
    cbn [mbind option_bind]. intros [= <-]. cbn [heap].
    pose proof (Hjob i t Ht) as Hi.
    apply resume_effect in Hr
      as (_ & _ & [(Hh & _)|(f & -> & _ & Hp & Hf)]).
    + rewrite Hh. exists j. eauto 10.
    + cbn [heap call update]. rewrite Hi.
      destruct (decide (i = l)) as [<-|Hne].
      * rewrite list_lookup_alter_eq, Hj. cbn [fmap option_fmap option_map].
        destruct (Hproc i t Ht Hp) as (j0 & Hj0 & Hst).
        assert (j0 = j) as -> by congruence.
        eexists. split; [done|].
        destruct Hf as [[m ->]|(d & u & ->)]; simpl; eauto 10.
      * rewrite list_lookup_alter_ne by done. exists j. eauto 10.
Qed.

Lemma job_changes_once_witness :
  exists j',
    heap (processContract (js "job-2") 5 (js "uploads/b.pdf") (js "b.pdf") None
            (processContract (js "job-1") 0 (js "uploads/a.pdf") (js "a.pdf")
               None constructor).2).2 !! 0%nat = Some j' /\
    id j' = js "job-1" /\ filename j' = js "a.pdf" /\ createdAt j' = 0 /\
    targetConfluenceUrl j' = None /\
    (j' = mkJob (js "job-1") (js "a.pdf") processing 0 None None None None None
     \/ (processing = processing
         /\ (status j' = completed \/ status j' = failed))).
Proof.
  apply (job_changes_once
           (processContract (js "job-1") 0 (js "uploads/a.pdf") (js "a.pdf")
              None constructor).2
           (processContract (js "job-2") 5 (js "uploads/b.pdf") (js "b.pdf") None
              (processContract (js "job-1") 0 (js "uploads/a.pdf") (js "a.pdf")
                 None constructor).2).2
           0%nat
           (mkJob (js "job-1") (js "a.pdf") processing 0 None None None None None)).
  - eapply reachable_step; [apply reachable_init | apply step_submit].
  - apply step_submit.
  - reflexivity.
Defined.

(** X4. The registry only grows, at its end: a step keeps the ids of the Map
    in their order and adds at most one, so that no id is ever removed:
    every id that [getJobStatus] found before the step, it finds after it.
    This is about the ids, not about the objects filed under them: were an
    id used for two submissions, the Map would hold under it the object
    that was written last. *)
Theorem registry_only_grows s s' :
  reachable s -> step s s' ->
  (exists added,
      keys (jobs s') = keys (jobs s) ++ added /\ (length added <= 1)%nat) /\
  (forall k, is_Some (getJobStatus k s).1 -> is_Some (getJobStatus k s').1).
Proof.
  intros Hs Hstep. apply reachable_lifecycle in Hs as [_ _ _ _ _ Htk _].
  unfold getJobStatus. cbn [fst].
  destruct Hstep as [uuid now filePath filename0 target s|i now r s s' Hres].
  - rewrite processContract_state. cbn [jobs]. split.
    + destruct (get (jobs s) uuid) eqn:E.
      * exists []. rewrite keys_set_present, app_nil_r by by eexists.
        split; [done | simpl; lia].
      * exists [uuid]. rewrite keys_set_fresh by done. split; [done | simpl; lia].
    + intros k Hk. by apply get_set_is_Some.
  - revert Hres. unfold resumeTask.
    destruct (tasks s !! i) as [t|] eqn:Ht; [|done]. cbn [mbind option_bind].
    destruct (resume now t r s) as [[t' s1]|] eqn:Hr; [|done].
    cbn [mbind option_bind]. intros [= <-]. cbn [jobs].
    apply resume_effect in Hr
      as (_ & _ & [(_ & HJ & _)|(f & -> & _)]).
    + rewrite HJ. split; [|done].
      exists []. rewrite app_nil_r. split; [done|simpl; lia].
    + cbn [jobs call update]. split.
      * exists []. rewrite app_nil_r. split; [|simpl; lia].
        apply keys_set_present. eauto.
      * intros k Hk. by apply get_set_is_Some.
Qed.

Lemma registry_only_grows_witness :
  (exists added,
      keys (jobs (processContract (js "job-2") 5 (js "uploads/b.pdf") (js "b.pdf")
                    None
                    (processContract (js "job-1") 0 (js "uploads/a.pdf")
                       (js "a.pdf") None constructor).2).2)
      = keys (jobs (processContract (js "job-1") 0 (js "uploads/a.pdf")
                      (js "a.pdf") None constructor).2) ++ added
      /\ (length added <= 1)%nat) /\
  (forall k,
      is_Some (getJobStatus k
                 (processContract (js "job-1") 0 (js "uploads/a.pdf")
                    (js "a.pdf") None constructor).2).1 ->
      is_Some (getJobStatus k
                 (processContract (js "job-2") 5 (js "uploads/b.pdf") (js "b.pdf")
                    None
                    (processContract (js "job-1") 0 (js "uploads/a.pdf")
                       (js "a.pdf") None constructor).2).2).1).
Proof.
  apply (registry_only_grows
           (processContract (js "job-1") 0 (js "uploads/a.pdf") (js "a.pdf")
              None constructor).2
           (processContract (js "job-2") 5 (js "uploads/b.pdf") (js "b.pdf")
              None
              (processContract (js "job-1") 0 (js "uploads/a.pdf") (js "a.pdf")
                 None constructor).2).2).
  - eapply reachable_step; [apply reachable_init|apply step_submit].
  - apply step_submit.
Defined.

(** X5. The runs are isolated: a step of the run of one job, whatever the
    reply it is resumed with, changes neither the run nor the job object of
    any other job. *)
Theorem runs_are_isolated s s' i now r i' :
  reachable s -> resumeTask i now r s = Some s' -> i' <> i ->
  tasks s' !! i' = tasks s !! i' /\ heap s' !! i' = heap s !! i'.
Proof.
  intros Hs Hres Hne. apply reachable_invariant in Hs.
  by eapply resumeTask_frame.
Qed.

Lemma runs_are_isolated_witness :
  tasks (default constructor
           (resumeTask 0 7 (ReadFileSettled (Fulfilled textFile))
              (processContract (js "job-2") 5 (js "uploads/b.pdf") (js "b.pdf") None
                 (processContract (js "job-1") 0 (js "uploads/a.pdf") (js "a.pdf")
                    None constructor).2).2)) !! 1%nat
  = tasks (processContract (js "job-2") 5 (js "uploads/b.pdf") (js "b.pdf") None
             (processContract (js "job-1") 0 (js "uploads/a.pdf") (js "a.pdf")
                None constructor).2).2 !! 1%nat
  /\
  heap (default constructor
          (resumeTask 0 7 (ReadFileSettled (Fulfilled textFile))
             (processContract (js "job-2") 5 (js "uploads/b.pdf") (js "b.pdf") None
                (processContract (js "job-1") 0 (js "uploads/a.pdf") (js "a.pdf")
                   None constructor).2).2)) !! 1%nat
  = heap (processContract (js "job-2") 5 (js "uploads/b.pdf") (js "b.pdf") None
            (processContract (js "job-1") 0 (js "uploads/a.pdf") (js "a.pdf")
               None constructor).2).2 !! 1%nat.
Proof.
  apply (runs_are_isolated
           (processContract (js "job-2") 5 (js "uploads/b.pdf") (js "b.pdf") None
              (processContract (js "job-1") 0 (js "uploads/a.pdf") (js "a.pdf")
                 None constructor).2).2
           (default constructor
              (resumeTask 0 7 (ReadFileSettled (Fulfilled textFile))
                 (processContract (js "job-2") 5 (js "uploads/b.pdf") (js "b.pdf") None
                    (processContract (js "job-1") 0 (js "uploads/a.pdf") (js "a.pdf")
                       None constructor).2).2))
           0%nat 7 (ReadFileSettled (Fulfilled textFile)) 1%nat).
  - eapply reachable_step;
      [eapply reachable_step; [apply reachable_init | apply step_submit]
      | apply step_submit].
  - reflexivity.
  - lia.
Defined.

(** X6. A submission does not disturb the other ids: what [getJobStatus]
    finds under any other id is what it found before. *)
Theorem submission_keeps_other_ids uuid now filePath filename target s k :
  k <> uuid ->
  (getJobStatus k (processContract uuid now filePath filename target s).2).1
  = (getJobStatus k s).1.
Proof.
  intros Hne. rewrite processContract_state. unfold getJobStatus. cbn [fst jobs].
  by rewrite get_set_ne.
Qed.

Lemma submission_keeps_other_ids_witness :
  (getJobStatus (js "job-1")
     (processContract (js "job-2") 5 (js "uploads/b.pdf") (js "b.pdf") None
        (processContract (js "job-1") 0 (js "uploads/a.pdf") (js "a.pdf")
           None constructor).2).2).1
  = (getJobStatus (js "job-1")
       (processContract (js "job-1") 0 (js "uploads/a.pdf") (js "a.pdf")
          None constructor).2).1.
Proof.
  apply (submission_keeps_other_ids (js "job-2") 5 (js "uploads/b.pdf")
           (js "b.pdf") None
           (processContract (js "job-1") 0 (js "uploads/a.pdf") (js "a.pdf")
              None constructor).2
           (js "job-1")).
  vm_compute. discriminate.
Defined.

End LifecycleProperties.

Section RouteProperties.
Import JS Types Http ProcessorService ContractRoutes Vocabulary Lifecycle.

Lemma get_None_not_key {V} (m : Map V) k : get m k = None -> k ∉ keys m.
Proof.
  induction m as [|[k0 v0] m IH]; simpl; [intros _; apply not_elem_of_nil|].
  destruct (str_eqb k0 k) eqn:E; [done|]. intros H.
  apply not_elem_of_cons. split; [|by apply IH].
  intros ->. by rewrite str_eqb_refl in E.
Qed.

Lemma set_keys_NoDup {V} (m : Map V) k v :
  NoDup (keys m) -> NoDup (keys (set m k v)).
Proof.
  intros Hm. destruct (get m k) eqn:E.
  - by rewrite keys_set_present by by eexists.
  - rewrite keys_set_fresh by done. apply NoDup_app. split; [done|].
    split; [|apply NoDup_singleton].
    intros x Hx ->%list_elem_of_singleton. by apply get_None_not_key in E.
Qed.

Lemma elem_of_get {V} (m : Map V) k v :
  NoDup (keys m) -> (k, v) ∈ m -> get m k = Some v.
Proof.
  induction m as [|[k0 v0] m IH]; simpl; [by intros _ ?%elem_of_nil|].
  intros Hnd Hin. apply NoDup_cons in Hnd as [Hk0 Hnd].
  apply elem_of_cons in Hin as [[= <- <-]|Hin].
  - by rewrite str_eqb_refl.
  - destruct (str_eqb k0 k) eqn:E; [|by apply IH].
    apply str_eqb_eq in E as ->. exfalso. apply Hk0.
    apply list_elem_of_fmap. by exists (k, v).
Qed.

Lemma reachable_keys_NoDup s : reachable s -> NoDup (keys (jobs s)).
Proof.
  induction 1 as [|s s' _ IH Hstep]; [apply NoDup_nil_2|].
  destruct Hstep as [uuid now filePath filename0 target s|i now r s s' Hres].
  - rewrite processContract_state. cbn [jobs]. by apply set_keys_NoDup.
  - revert Hres. unfold resumeTask.
    destruct (tasks s !! i) as [t|] eqn:Ht; [|done]. cbn [mbind option_bind].
    destruct (resume now t r s) as [[t' s1]|] eqn:Hr; [|done].
    cbn [mbind option_bind]. intros [= <-]. cbn [jobs].
    apply resume_effect in Hr as (_ & _ & [(_ & HJ & _)|(f & -> & _)]).
    + by rewrite HJ.
    + cbn [jobs call update]. by apply set_keys_NoDup.
Qed.

(** The objects behind the references of a Map, read in its order, carry its
    keys. *)
Lemma listed_ids (m : Map ref) (h : list ProcessingJob) :
  (forall k l, (k, l) ∈ m -> exists j, h !! l = Some j /\ id j = k) ->
  id <$> omap (h !!.) (values m) = keys m.
Proof.
  induction m as [|[k l] m IH]; [done|]. intros H.
  destruct (H k l) as (j & Hj & Hid); [by left|].
  unfold values, keys in *. simpl. rewrite Hj. simpl. rewrite Hid. f_equal.
  apply IH. intros k' l' Hin. apply H. by right.
Qed.

(** X7. The status route answers 404 exactly for the ids that are not in the
    registry, and 200 for all the others; in both cases it changes
    nothing. *)
Theorem getStatus_404_iff_unknown s k :
  reachable s ->
  (statusCode (getStatus k s).1 = 404 <-> get (jobs s) k = None) /\
  (statusCode (getStatus k s).1 = 200 <-> is_Some (get (jobs s) k)) /\
  (getStatus k s).2 = s.
Proof.
  intros Hs. apply reachable_invariant in Hs as [_ _ Href _ _].
  unfold getStatus, getJobStatus. destruct (get (jobs s) k) as [l|] eqn:E.
  - pose proof (Href _ _ E) as Hl. apply lookup_lt_is_Some in Hl as [j Hj].
    cbv beta iota zeta. cbn [mbind option_bind]. cbv beta.
    unfold ref in *. rewrite Hj.
    cbn [fst snd statusCode].
    split; [split; discriminate|]. split; [|done]. split; [by eexists|done].
  - cbv beta iota zeta. cbn [mbind option_bind fst snd statusCode].
    split; [done|]. split; [|done]. split; [discriminate|by intros [? ?]].
Qed.

Lemma getStatus_404_iff_unknown_witness :
  (statusCode (getStatus (js "job-9")
                 (submitAndRun (demoProviders pdfFile (js "Lease")) (js "job-1") 0
                    (js "uploads/a.pdf") (js "a.pdf") None constructor)).1 = 404
   <-> get (jobs (submitAndRun (demoProviders pdfFile (js "Lease")) (js "job-1") 0
                    (js "uploads/a.pdf") (js "a.pdf") None constructor))
           (js "job-9") = None) /\
  (statusCode (getStatus (js "job-9")
                 (submitAndRun (demoProviders pdfFile (js "Lease")) (js "job-1") 0
                    (js "uploads/a.pdf") (js "a.pdf") None constructor)).1 = 200
   <-> is_Some (get (jobs (submitAndRun (demoProviders pdfFile (js "Lease"))
                             (js "job-1") 0 (js "uploads/a.pdf") (js "a.pdf")
                             None constructor))
                    (js "job-9"))) /\
  (getStatus (js "job-9")
     (submitAndRun (demoProviders pdfFile (js "Lease")) (js "job-1") 0
        (js "uploads/a.pdf") (js "a.pdf") None constructor)).2
  = submitAndRun (demoProviders pdfFile (js "Lease")) (js "job-1") 0
      (js "uploads/a.pdf") (js "a.pdf") None constructor.
Proof.
  apply (getStatus_404_iff_unknown
           (submitAndRun (demoProviders pdfFile (js "Lease")) (js "job-1") 0
              (js "uploads/a.pdf") (js "a.pdf") None constructor)
           (js "job-9")).
  apply submitAndRun_reachable, reachable_init.
Defined.

(** X8. The list route reports every job of the registry, once, in the order
    of the Map: [total] is the number of ids, and the n-th entry is an object
    whose [id] is the n-th id. *)
Theorem getJobs_lists_registry s :
  reachable s ->
  exists entries,
    (getJobs s).1
    = mkResponse 200 (Zod.VObject
        [(js "total", Zod.VNumber (Z.of_nat (length (keys (jobs s)))));
         (js "jobs", Zod.VArray entries)]) /\
    length entries = length (keys (jobs s)) /\
    forall n k, keys (jobs s) !! n = Some k ->
      exists fields, entries !! n = Some (Zod.VObject fields)
                     /\ Zod.prop fields (js "id") = Zod.VString k.
Proof.
  intros Hs.
  pose proof (reachable_keys_NoDup s Hs) as Hnd.
  apply reachable_lifecycle in Hs as [[_ _ Href _ _] _ _ _ _ _ Hkid].
  unfold getJobs, getAllJobs. cbv beta iota zeta. cbn [fst].
  match goal with
  | |- context [omap ?f ?l] =>
      assert (Hids : id <$> omap f l = keys (jobs s));
      [|revert Hids; generalize (omap f l); intros listed Hids]
  end.
  { apply listed_ids. intros k l Hin. apply elem_of_get in Hin; [|done].
    pose proof (Href _ _ Hin) as Hl. apply lookup_lt_is_Some in Hl as [j Hj].
    exists j. eauto. }
  eexists. split; [|split].
  - do 3 f_equal. by rewrite <- Hids, length_fmap.
  - by rewrite length_fmap, <- Hids, length_fmap.
  - intros n k Hk. rewrite <- Hids, list_lookup_fmap in Hk.
    destruct (listed !! n) as [j|] eqn:Hj; simpl in Hk; [|done].
    injection Hk as <-.
    eexists. split; [by rewrite list_lookup_fmap, Hj|]. reflexivity.
Qed.

Lemma getJobs_lists_registry_witness :
  exists entries,
    (getJobs (submitAndRun (demoProviders pdfFile (js "Lease")) (js "job-1") 0
                (js "uploads/a.pdf") (js "a.pdf") None constructor)).1
    = mkResponse 200 (Zod.VObject
        [(js "total", Zod.VNumber (Z.of_nat (length (keys (jobs
            (submitAndRun (demoProviders pdfFile (js "Lease")) (js "job-1") 0
               (js "uploads/a.pdf") (js "a.pdf") None constructor))))));
         (js "jobs", Zod.VArray entries)]) /\
    length entries
    = length (keys (jobs (submitAndRun (demoProviders pdfFile (js "Lease"))
                            (js "job-1") 0 (js "uploads/a.pdf") (js "a.pdf")
                            None constructor))) /\
    forall n k,
      keys (jobs (submitAndRun (demoProviders pdfFile (js "Lease")) (js "job-1") 0
                    (js "uploads/a.pdf") (js "a.pdf") None constructor)) !! n
      = Some k ->
      exists fields, entries !! n = Some (Zod.VObject fields)
                     /\ Zod.prop fields (js "id") = Zod.VString k.
Proof.
  apply (getJobs_lists_registry
           (submitAndRun (demoProviders pdfFile (js "Lease")) (js "job-1") 0
              (js "uploads/a.pdf") (js "a.pdf") None constructor)).
  apply submitAndRun_reachable, reachable_init.
Defined.

End RouteProperties.

(** ** The text clean-up of pdf.service.ts *)

Section TextFacts.
Import JS TextExtraction.

Lemma isWhiteSpace_32 : isWhiteSpace 32 = true.
Proof. reflexivity. Qed.

Lemma isWhiteSpace_10 : isWhiteSpace 10 = true.
Proof. reflexivity. Qed.

(** [trimStart] removes a prefix of white space and stops at the first unit
    that is none. *)
Lemma trimStart_split (s : jsstring) :
  exists pre, s = pre ++ trimStart s /\ Forall (fun c => isWhiteSpace c = true) pre.
Proof.
  induction s as [|c r (pre & IH & Hpre)]; [by exists []|]. simpl.
  destruct (isWhiteSpace c) eqn:E.
  - exists (c :: pre). split; [by rewrite <- app_comm_cons, <- IH | by constructor].
  - by exists [].
Qed.

Lemma trimStart_head (s : jsstring) c :
  head (trimStart s) = Some c -> isWhiteSpace c = false.
Proof.
  induction s as [|x r IH]; simpl; [done|].
  destruct (isWhiteSpace x) eqn:E; [done|]. simpl. by intros [= <-].
Qed.

Lemma trimStart_id (s : jsstring) :
  (forall c, head s = Some c -> isWhiteSpace c = false) -> trimStart s = s.
Proof. destruct s as [|c r]; [done|]. simpl. intros H. by rewrite (H c). Qed.

Lemma trimStart_snoc (s : jsstring) c :
  isWhiteSpace c = false -> trimStart (s ++ [c]) = trimStart s ++ [c].
Proof.
  intros Hc. induction s as [|x r IH]; simpl; [by rewrite Hc|].
  by destruct (isWhiteSpace x).
Qed.

(** [trim] keeps a contiguous part of the string. *)
Lemma trim_split (s : jsstring) : exists pre post, s = pre ++ trim s ++ post.
Proof.
  unfold trim. destruct (trimStart_split s) as (pre & Hs & _).
  destruct (trimStart_split (reverse (trimStart s))) as (post & Hr & _).
  exists pre, (reverse post). rewrite <- reverse_app, <- Hr, reverse_involutive.
  done.
Qed.

Lemma trim_head (s : jsstring) c : head (trim s) = Some c -> isWhiteSpace c = false.
Proof.
  unfold trim. rewrite head_reverse.
  destruct (trimStart_split (reverse (trimStart s))) as (pre & Hr & _).
  intros Hl.
  assert (Hlast : last (reverse (trimStart s)) = Some c).
  { rewrite Hr. destruct (trimStart (reverse (trimStart s))) as [|x u] using rev_ind;
      [done|]. rewrite app_assoc, last_snoc. by rewrite last_snoc in Hl. }
  rewrite last_reverse in Hlast. by apply trimStart_head in Hlast.
Qed.

Lemma trim_last (s : jsstring) c : last (trim s) = Some c -> isWhiteSpace c = false.
Proof. unfold trim. rewrite last_reverse. apply trimStart_head. Qed.

Lemma trim_id (s : jsstring) :
  (forall c, head s = Some c -> isWhiteSpace c = false) ->
  (forall c, last s = Some c -> isWhiteSpace c = false) ->
  trim s = s.
Proof.
  intros Hh Hl. unfold trim. rewrite (trimStart_id s Hh).
  rewrite trimStart_id; [apply reverse_involutive|].
  intros c. rewrite head_reverse. apply Hl.
Qed.

(** A string that starts with a unit that is no white space keeps it. *)
Lemma trim_keeps_head (s : jsstring) c :
  head s = Some c -> isWhiteSpace c = false -> head (trim s) = Some c.
Proof.
  destruct s as [|x r]; [done|]. intros [= ->] Hc. unfold trim.
  simpl trimStart at 2. rewrite Hc. rewrite reverse_cons.
  rewrite trimStart_snoc by done. by rewrite reverse_app.
Qed.

Lemma trim_length (s : jsstring) : (length (trim s) <= length s)%nat.
Proof.
  destruct (trim_split s) as (pre & post & Hs).
  rewrite Hs at 2. rewrite !length_app. lia.
Qed.

(** After the first replacement every white space is one U+0020. *)
Lemma replaceWhiteSpace_units b (s : jsstring) c :
  c ∈ replaceWhiteSpace b s -> isWhiteSpace c = true -> c = 32.
Proof.
  revert b. induction s as [|x r IH]; intros b; simpl; [by intros ?%elem_of_nil|].
  destruct (isWhiteSpace x) eqn:E.
  - destruct b; [by apply IH|].
    intros [->|H]%elem_of_cons; [done|by eapply IH].
  - intros [->|H]%elem_of_cons; [congruence|by eapply IH].
Qed.

Lemma replaceWhiteSpace_head (s : jsstring) :
  head (replaceWhiteSpace true s) <> Some 32.
Proof.
  induction s as [|x r IH]; simpl; [done|].
  destruct (isWhiteSpace x) eqn:E; [done|]. simpl. intros [= ->]. done.
Qed.

Lemma replaceWhiteSpace_adjacent b (s : jsstring) i :
  replaceWhiteSpace b s !! i = Some 32 ->
  replaceWhiteSpace b s !! S i <> Some 32.
Proof.
  revert b i. induction s as [|x r IH]; intros b i; simpl; [done|].
  destruct (isWhiteSpace x) eqn:E.
  - destruct b; [by apply IH|]. destruct i as [|i]; simpl; [|by apply IH].
    intros _. pose proof (replaceWhiteSpace_head r) as H.
    by destruct (replaceWhiteSpace true r).
  - destruct i as [|i]; simpl; [|by apply IH]. intros [= ->]. done.
Qed.

(** A string in that form is left as it is by the first replacement. *)
Lemma replaceWhiteSpace_id b (s : jsstring) :
  (forall c, c ∈ s -> isWhiteSpace c = true -> c = 32) ->
  (forall i, s !! i = Some 32 -> s !! S i <> Some 32) ->
  (b = true -> head s <> Some 32) ->
  replaceWhiteSpace b s = s.
Proof.
  revert b. induction s as [|x r IH]; intros b Hu Ha Hh; [done|]. simpl.
  destruct (isWhiteSpace x) eqn:E.
  - assert (x = 32) as -> by (apply Hu; [by left|done]).
    destruct b; [by destruct Hh|]. f_equal. apply IH.
    + intros c Hc. apply Hu. by right.
    + intros i. apply (Ha (S i)).
    + intros _. pose proof (Ha 0%nat eq_refl) as H0. by destruct r.
  - f_equal. apply IH; [|intros i; apply (Ha (S i))|done].
    intros c Hc. apply Hu. by right.
Qed.

(** Without a line feed the second replacement finds no match. *)
Lemma replaceBlankLines_id fuel (s : jsstring) :
  10 ∉ s -> replaceBlankLines fuel s = s.
Proof.
  revert s. induction fuel as [|fuel IH]; intros s Hs; [done|].
  destruct s as [|c r]; [done|]. simpl.
  apply not_elem_of_cons in Hs as [Hc Hr].
  destruct (Z.eqb_spec c 10); [done|]. by rewrite IH.
Qed.

Lemma replaceWhiteSpace_no_line_feed b (s : jsstring) :
  10 ∉ replaceWhiteSpace b s.
Proof.
  intros H. by apply replaceWhiteSpace_units in H.
Qed.

Lemma split_single_line (s : jsstring) : 10 ∉ s -> split 10 s = [s].
Proof.
  induction s as [|c r IH]; [done|]. intros [Hc Hr]%not_elem_of_cons. simpl.
  destruct (Z.eqb_spec c 10); [done|]. by rewrite IH.
Qed.

End TextFacts.

Section TextProperties.
Import JS TextExtraction.

(** The fuel of the second replacement: any amount from the length of the
    string on gives the same result. *)
Lemma spanWhiteSpace_app (s : jsstring) :
  (spanWhiteSpace s).1 ++ (spanWhiteSpace s).2 = s.
Proof.
  induction s as [|c r IH]; [done|]. simpl.
  destruct (isWhiteSpace c); [|done].
  destruct (spanWhiteSpace r) as [run rest]. simpl in *. by rewrite IH.
Qed.

Lemma afterLastLineFeed_length (run tail : jsstring) :
  afterLastLineFeed run = Some tail -> (length tail < length run)%nat.
Proof.
  revert tail. induction run as [|c r IH]; intros tail; simpl; [done|].
  destruct (afterLastLineFeed r) as [t|].
  - intros [= <-]. specialize (IH t eq_refl). lia.
  - destruct (c =? 10); [|done]. intros [= <-]. lia.
Qed.

Lemma replaceBlankLines_fuel (f1 f2 : nat) (s : jsstring) :
  (length s <= f1)%nat -> (length s <= f2)%nat ->
  replaceBlankLines f1 s = replaceBlankLines f2 s.
Proof.
  revert f2 s. induction f1 as [|f1 IH]; intros f2 s H1 H2.
  - destruct s; [|simpl in H1; lia]. by destruct f2.
  - destruct f2 as [|f2]; [destruct s; [done|simpl in H2; lia]|].
    destruct s as [|c r]; [done|]. simpl in H1, H2. simpl.
    destruct (c =? 10); [|f_equal; apply IH; lia].
    pose proof (spanWhiteSpace_app r) as Hr.
    destruct (spanWhiteSpace r) as [run rest]. simpl in Hr.
    destruct (afterLastLineFeed run) as [tail|] eqn:E; [|f_equal; apply IH; lia].
    apply afterLastLineFeed_length in E.
    assert (length (tail ++ rest) < length r)%nat
      by (rewrite <- Hr, !length_app; lia).
    f_equal; apply IH; lia.
Qed.

(** A paragraph break with blanks in it is one match of the second
    replacement. *)
Example replaceBlankLines_paragraphs :
  replaceBlankLines 9 (js "a" ++ [10; 32; 10; 10] ++ js " b" ++ [10] ++ js "c")
  = js "a" ++ [10] ++ js " b" ++ [10] ++ js "c".
Proof. reflexivity. Qed.

Example cleanText_example :
  cleanText ([32; 9] ++ js "Service" ++ [10; 10; 160] ++ js "Agreement" ++ [13; 10])
  = js "Service Agreement".
Proof. reflexivity. Qed.

Lemma cleanText_normal (text : jsstring) :
  (forall c, c ∈ cleanText text -> isWhiteSpace c = true -> c = 32) /\
  (forall i, cleanText text !! i = Some 32 -> cleanText text !! S i <> Some 32) /\
  head (cleanText text) <> Some 32 /\
  last (cleanText text) <> Some 32 /\
  10 ∉ cleanText text.
Proof.
  unfold cleanText. cbv zeta.
  rewrite replaceBlankLines_id by apply replaceWhiteSpace_no_line_feed.
  set (spaced := replaceWhiteSpace false text).
  destruct (trim_split spaced) as (pre & post & Hs).
  assert (Hin : forall c, c ∈ trim spaced -> c ∈ spaced).
  { intros c Hc. rewrite Hs, !elem_of_app. auto. }
  assert (Hu : forall c, c ∈ trim spaced -> isWhiteSpace c = true -> c = 32).
  { intros c Hc. apply (replaceWhiteSpace_units false text), Hin, Hc. }
  split; [done|]. split; [|split; [|split]].
  - intros i Hi Hi'. unfold jsstring in *.
    apply (replaceWhiteSpace_adjacent false text (length pre + i)); fold spaced.
    + rewrite Hs. unfold jsstring. rewrite lookup_app_r by lia.
      replace (length pre + i - length pre)%nat with i by lia.
      by apply lookup_app_l_Some.
    + rewrite Hs. unfold jsstring. rewrite lookup_app_r by lia.
      replace (S (length pre + i) - length pre)%nat with (S i) by lia.
      by apply lookup_app_l_Some.
  - intros H. by apply trim_head in H.
  - intros H. by apply trim_last in H.
  - intros H. by apply Hu in H.
Qed.

(** X9. The text that [extractText] returns is in a normal form, whatever
    pdf-parse gave: its only white space is U+0020, never twice in a row,
    never at the start nor at the end; in particular it has no line feed. *)
Theorem cleanText_normal_form (text : jsstring) :
  (forall c, c ∈ cleanText text -> isWhiteSpace c = true -> c = 32) /\
  (forall i, cleanText text !! i = Some 32 -> cleanText text !! S i <> Some 32) /\
  head (cleanText text) <> Some 32 /\
  last (cleanText text) <> Some 32 /\
  10 ∉ cleanText text.
Proof. apply cleanText_normal. Qed.

(** X10. The second replacement of the clean-up, of a line feed, white space
    and a line feed by one line feed, never finds a match: the first one has
    already turned every line feed into a space. The clean-up is the first
    replacement followed by [trim]. *)
Theorem cleanText_blank_lines_pass_is_idle (text : jsstring) (fuel : nat) :
  replaceBlankLines fuel (replaceWhiteSpace false text)
  = replaceWhiteSpace false text /\
  cleanText text = trim (replaceWhiteSpace false text).
Proof.
  assert (H : forall fuel, replaceBlankLines fuel (replaceWhiteSpace false text)
                           = replaceWhiteSpace false text)
    by (intros f; apply replaceBlankLines_id, replaceWhiteSpace_no_line_feed).
  split; [apply H|]. unfold cleanText. cbv zeta. by rewrite H.
Qed.

(** X11. The clean-up is idempotent: a text that was cleaned is left as it
    is. *)
Theorem cleanText_idempotent (text : jsstring) :
  cleanText (cleanText text) = cleanText text.
Proof.
  destruct (cleanText_normal text) as (Hu & Ha & Hh & Hl & Hn).
  generalize dependent (cleanText text). intros t Hu Ha Hh Hl Hn.
  unfold cleanText. cbv zeta.
  rewrite (replaceWhiteSpace_id false t Hu Ha) by done.
  rewrite replaceBlankLines_id by done.
  apply trim_id.
  - intros c Hc. destruct (isWhiteSpace c) eqn:E; [|done].
    assert (c = 32) as -> by (apply Hu; [by apply head_Some_elem_of|done]).
    done.
  - intros c Hc. destruct (isWhiteSpace c) eqn:E; [|done].
    assert (c = 32) as ->; [|done].
    apply Hu; [|done]. rewrite last_lookup in Hc. by eapply list_elem_of_lookup_2.
Qed.

End TextProperties.

(** ** The demo record of ai.service.ts *)

Section DemoTitle.
Import JS Types TextExtraction.

Lemma substring_0 (s : jsstring) n : substring s 0 n = take n s.
Proof. unfold substring. by rewrite Nat.min_0_l, Nat.max_0_l, Nat.sub_0_r, drop_0. Qed.

(** X12. The title of the demo record is never empty, has at most 100 code
    units and neither starts nor ends with white space, whatever the text
    is. *)
Theorem demo_title_well_formed (contractText : jsstring) :
  contractTitle (AIService.generateDemoData contractText) <> [] /\
  (length (contractTitle (AIService.generateDemoData contractText)) <= 100)%nat /\
  (forall c, head (contractTitle (AIService.generateDemoData contractText)) = Some c ->
             isWhiteSpace c = false) /\
  (forall c, last (contractTitle (AIService.generateDemoData contractText)) = Some c ->
             isWhiteSpace c = false).
Proof.
  cbn [AIService.generateDemoData contractTitle].
  set (firstLine := or_else _ (js "Sample Contract")).
  assert (Hlen : (length firstLine <= 100)%nat).
  { subst firstLine. destruct (split 10 contractText !! 0%nat) as [l|]; simpl.
    - rewrite substring_0.
      assert (Hl : (length (take 100 l) <= 100)%nat) by (rewrite length_take; lia).
      destruct (take 100 l) as [|c r]; simpl in *; [vm_compute|]; lia.
    - vm_compute. lia. }
  pose proof (trim_length firstLine) as Ht.
  pose proof (trim_head firstLine) as Hh.
  pose proof (trim_last firstLine) as Hl.
  destruct (trim firstLine) as [|c r]; simpl.
  - repeat split; try done.
    + vm_compute. lia.
    + intros c [= <-]. reflexivity.
    + intros c Hc. vm_compute in Hc. injection Hc as <-. reflexivity.
  - repeat split; try done. simpl in Ht. lia.
Qed.

(** X13. On a text that comes out of the clean-up of [extractText], which
    has no line feed, the title of the demo record is 'Sample Contract' when
    the text is empty and otherwise the first 100 code units of the text
    without a space at the end; it starts as the text does, so that the
    second default, 'Demo Service Agreement', is not used. *)
Theorem demo_title_of_extracted_text (text : jsstring) :
  match cleanText text with
  | [] =>
      contractTitle (AIService.generateDemoData (cleanText text))
      = js "Sample Contract"
  | c :: r =>
      contractTitle (AIService.generateDemoData (cleanText text))
      = trim (take 100 (c :: r))
      /\ head (contractTitle (AIService.generateDemoData (cleanText text))) = Some c
  end.
Proof.
  destruct (cleanText_normal text) as (Hu & _ & Hh & _ & Hn).
  cbn [AIService.generateDemoData contractTitle].
  rewrite split_single_line by done.
  destruct (cleanText text) as [|c r]; [reflexivity|].
  cbn [lookup list_lookup fmap option_fmap option_map]. rewrite substring_0.
  cbn [take or_else].
  assert (Hc : isWhiteSpace c = false).
  { destruct (isWhiteSpace c) eqn:E; [|done].
    assert (c = 32) as -> by (apply Hu; [by left|done]). done. }
  pose proof (trim_keeps_head (c :: take 99 r) c eq_refl Hc) as Hhead.
  destruct (trim (c :: take 99 r)) as [|x u]; [done|]. by split.
Qed.

End DemoTitle.

(** ** The escaping of confluence.service.ts *)

Section Escaping.
Import JS PageContent.

Lemma replaceAll_app c by_ (a b : jsstring) :
  replaceAll c by_ (a ++ b) = replaceAll c by_ a ++ replaceAll c by_ b.
Proof.
  induction a as [|x a IH]; [done|]. simpl.
  destruct (x =? c); [by rewrite IH, app_assoc | by rewrite IH].
Qed.

Lemma escape_app (a b : jsstring) : escape (a ++ b) = escape a ++ escape b.
Proof. unfold escape. by rewrite !replaceAll_app. Qed.

Lemma escape_unit (c : Z) : escape [c] = entity c.
Proof.
  unfold escape, entity. cbn [replaceAll].
  destruct (Z.eqb_spec c 38) as [->|H38]; [reflexivity|]. cbn [replaceAll].
  destruct (Z.eqb_spec c 60) as [->|H60]; [reflexivity|]. cbn [replaceAll].
  destruct (Z.eqb_spec c 62) as [->|H62]; [reflexivity|]. cbn [replaceAll].
  destruct (Z.eqb_spec c 34) as [->|H34]; [reflexivity|]. cbn [replaceAll].
  destruct (Z.eqb_spec c 39) as [->|H39]; reflexivity.
Qed.

Lemma entity_free (c x : Z) :
  x ∈ entity c -> x <> 60 /\ x <> 62 /\ x <> 34 /\ x <> 39.
Proof.
  unfold entity.
  destruct (Z.eqb_spec c 38); [|destruct (Z.eqb_spec c 60);
    [|destruct (Z.eqb_spec c 62); [|destruct (Z.eqb_spec c 34);
      [|destruct (Z.eqb_spec c 39)]]]];
    vm_compute js; intros H; repeat (apply elem_of_cons in H as [->|H]);
    try (by apply elem_of_nil in H); lia.
Qed.

Lemma entity_prefix_free (x y : Z) (a b : jsstring) :
  entity x ++ a = entity y ++ b -> x = y /\ a = b.
Proof.
  unfold entity.
  destruct (Z.eqb_spec x 38); [|destruct (Z.eqb_spec x 60);
    [|destruct (Z.eqb_spec x 62); [|destruct (Z.eqb_spec x 34);
      [|destruct (Z.eqb_spec x 39)]]]];
  (destruct (Z.eqb_spec y 38); [|destruct (Z.eqb_spec y 60);
    [|destruct (Z.eqb_spec y 62); [|destruct (Z.eqb_spec y 34);
      [|destruct (Z.eqb_spec y 39)]]]]);
  vm_compute js; cbn [app]; intros H; injection H as H; subst;
    try done; try lia; try (split; congruence).
Qed.

Lemma escape_concat (text : jsstring) : escape text = concat (entity <$> text).
Proof.
  induction text as [|c r IH]; [done|].
  change (c :: r) with ([c] ++ r). rewrite escape_app, escape_unit, IH. done.
Qed.

(** X14. The five replacements of [escape] do not rewrite one another's
    output: the result is the text with the ampersand, the two angle
    brackets and the two quotes each replaced by its entity and every other
    code unit kept; [escape] distributes over concatenation. *)
Theorem escape_is_unitwise (text more : jsstring) :
  escape text = concat (entity <$> text) /\
  escape (text ++ more) = escape text ++ escape more.
Proof. split; [apply escape_concat | apply escape_app]. Qed.

(** X15. An escaped text contains no angle bracket and no quote, double or
    single. *)
Theorem escape_has_no_markup (text : jsstring) :
  (60 ∉ escape text) /\ (62 ∉ escape text) /\
  (34 ∉ escape text) /\ (39 ∉ escape text).
Proof.
  assert (H : forall x, x ∈ escape text -> x <> 60 /\ x <> 62 /\ x <> 34 /\ x <> 39).
  { intros x. rewrite escape_concat.
    intros Hx. apply list_elem_of_In, in_concat in Hx as (e & He & Hx).
    apply list_elem_of_In, list_elem_of_fmap in He as (c & -> & _).
    apply list_elem_of_In in Hx. by eapply entity_free. }
  repeat split; intros Hx; apply H in Hx; lia.
Qed.

(** X16. [escape] loses nothing: two texts with the same escaped form are
    the same text. *)
Theorem escape_injective (a b : jsstring) : escape a = escape b -> a = b.
Proof.
  rewrite (escape_concat a), (escape_concat b).
  revert b. induction a as [|x a IH]; intros [|y b]; simpl.
  - done.
  - intros H. exfalso.
    assert (Hn : entity y <> []) by
      (unfold entity; repeat (destruct (_ =? _)); discriminate).
    destruct (entity y); [done|discriminate].
  - intros H. exfalso.
    assert (Hn : entity x <> []) by
      (unfold entity; repeat (destruct (_ =? _)); discriminate).
    destruct (entity x); [done|discriminate].
  - intros H. apply entity_prefix_free in H as [-> H]. f_equal. by apply IH.
Qed.

Lemma escape_injective_witness :
  js "Fish & <Chips>" = js "Fish & <Chips>".
Proof.
  apply (escape_injective (js "Fish & <Chips>") (js "Fish & <Chips>")).
  reflexivity.
Defined.

Example escape_example :
  escape (js "Fish & <Chips> 'n' " ++ [34] ++ js "Peas" ++ [34])
  = js "Fish &amp; &lt;Chips&gt; &#039;n&#039; &quot;Peas&quot;".
Proof. reflexivity. Qed.

End Escaping.

(** ** The services composed *)

Section Composition.
Import JS Types ProcessorService Vocabulary.

Ltac resume_step :=
  unfold resume, afterValidation;
  cbn [at_ answer suspend jobId filePath job pending_call];
  repeat match goal with
         | E : ?x = _ |- context [?x] => rewrite E
         end;
  try rewrite catchBlock_last by (reflexivity || apply get_set_eq);
  try rewrite update_last by (reflexivity || apply get_set_eq);
  unfold call, suspend; cbn [jobs heap tasks calls jobId filePath job];
  try rewrite lookup_last; cbn [mbind option_bind targetConfluenceUrl];
  reflexivity.

Ltac run_step_with :=
  erewrite run_step; [ | reflexivity | resume_step ];
  cbn [suspend jobId filePath job at_].

Ltac run_done :=
  rewrite run_returned by reflexivity;
  cbn [jobs heap tasks calls];
  repeat match goal with
         | E : ?x = _ |- context [?x] => rewrite E
         end;
  apply lookup_last.

(** The record a run leaves, from the answers of the providers. *)
Lemma submitAndRun_job P uuid now filePath filename target s :
  heap (submitAndRun P uuid now filePath filename target s) !! length (heap s)
  = Some
      match PDFService.isValidPDF (readFile P filePath) with
      | Fulfilled true =>
          match extractText P filePath with
          | Fulfilled text =>
              match extractContractData P text with
              | Fulfilled data =>
                  match createContractPage P data target with
                  | Fulfilled url =>
                      mkJob uuid filename completed now (Some (clock P 3)) None
                            (Some data) (Some url) target
                  | Rejected e =>
                      mkJob uuid filename failed now (Some (clock P 3))
                            (Some (messageOf e)) None None target
                  end
              | Rejected e =>
                  mkJob uuid filename failed now (Some (clock P 2))
                        (Some (messageOf e)) None None target
              end
          | Rejected e =>
              mkJob uuid filename failed now (Some (clock P 1))
                    (Some (messageOf e)) None None target
          end
      | _ =>
          mkJob uuid filename failed now (Some (clock P 0))
                (Some (js "Invalid PDF file")) None None target
      end.
Proof.
  unfold submitAndRun. rewrite processContract_state.
  destruct (PDFService.isValidPDF (readFile P filePath)) as [[|]|e] eqn:Ev.
  - run_step_with.
    destruct (extractText P filePath) as [text|e] eqn:Et.
    + run_step_with.
      destruct (extractContractData P text) as [data|e] eqn:Ed.
      * run_step_with.
        destruct (createContractPage P data target) as [url|e] eqn:Ep.
        -- run_step_with. run_step_with. run_done.
        -- run_step_with. run_step_with. run_done.
      * run_step_with. run_step_with. run_done.
    + run_step_with. run_step_with. run_done.
  - run_step_with. run_step_with. run_done.
  - exfalso. destruct (readFile P filePath); discriminate.
Qed.

(** X17. Failures are reported by stage, whatever the modes of the services
    are. A file that cannot be read or that is not a PDF gives 'Invalid PDF
    file'. The extraction reads the file again: when that second read fails,
    or when pdf-parse fails on the bytes it gave, the reason is 'Failed to
    extract text from PDF: ' followed by the message of the error. When the
    structured extraction fails, which only happens outside demo mode, the
    reason is 'Failed to extract contract data: ' followed by the message of
    the cause. Then the publication decides: its locator completes the job,
    its error fails it. *)
Theorem failure_reasons_by_stage aiDemo confluence o uuid now filePath filename
    target s :
  let P := Wiring.providers aiDemo confluence o in
  exists j,
    heap (submitAndRun P uuid now filePath filename target s) !! length (heap s)
    = Some j /\
    match Wiring.fs o 0%nat filePath with
    | Rejected _ => status j = failed /\ error j = Some (js "Invalid PDF file")
    | Fulfilled header =>
        if negb (str_eqb (Buffer.toString header 0 5) (js "%PDF-"))
        then status j = failed /\ error j = Some (js "Invalid PDF file")
        else
          match Wiring.fs o 1%nat filePath with
          | Rejected cause =>
              status j = failed /\
              error j = Some (js "Failed to extract text from PDF: "
                              ++ messageOf cause)
          | Fulfilled buf =>
              match Wiring.pdf o buf with
              | Rejected cause =>
                  status j = failed /\
                  error j = Some (js "Failed to extract text from PDF: "
                                  ++ messageOf cause)
              | Fulfilled data =>
                  let text := TextExtraction.cleanText (TextExtraction.text data) in
                  match (if aiDemo then Fulfilled (AIService.generateDemoData text)
                         else Wiring.model o text) with
                  | Rejected cause =>
                      status j = failed /\
                      error j = Some (js "Failed to extract contract data: "
                                      ++ messageOf cause)
                  | Fulfilled record =>
                      match createContractPage P record target with
                      | Fulfilled url =>
                          status j = completed /\ contractData j = Some record /\
                          confluencePageUrl j = Some url
                      | Rejected e =>
                          status j = failed /\ error j = Some (messageOf e)
                      end
                  end
              end
          end
    end.
Proof.
  intros P. eexists. split; [apply submitAndRun_job|].
  subst P. cbn [Wiring.providers readFile extractText extractContractData].
  unfold PDFService.isValidPDF, TextExtraction.extractText,
    AIService.extractContractData.
  destruct (Wiring.fs o 0%nat filePath) as [header|e0]; cbn [bind tryCatch]; [|done].
  destruct (str_eqb (Buffer.toString header 0 5) (js "%PDF-")); cbn [negb]; [|done].
  destruct (Wiring.fs o 1%nat filePath) as [buf|cause]; cbn [bind tryCatch]; [|done].
  destruct (Wiring.pdf o buf) as [data|cause]; cbn [bind tryCatch]; [|done].
  destruct aiDemo; cbn [tryCatch].
  - destruct (createContractPage _ _ _); done.
  - destruct (Wiring.model o _) as [record|cause]; cbn [tryCatch]; [|done].
    destruct (createContractPage _ _ _); done.
Qed.

(** X18. With both services in demo mode the outcome of a job is fixed by
    the two reads of the upload, by pdf-parse and by the target; the model
    and the Confluence API have no part in it. The job fails with 'Invalid
    PDF file' when the first read fails or does not show the signature, and
    with 'Failed to extract text from PDF: ' and the message of the error
    when the second read or pdf-parse fails. Otherwise it completes with the
    demo record of the cleaned text and, as its page, the target when a
    non-empty one was submitted, else the demo locator of the title; the
    only other failure is 'URI malformed', for a title with an unpaired
    surrogate and no target. *)
Theorem demo_mode_outcome baseUrl spaceKey parentPageId o uuid now filePath
    filename target s :
  let P := Wiring.providers true
             (ConfluenceService.mkService baseUrl spaceKey parentPageId true) o in
  heap (submitAndRun P uuid now filePath filename target s) !! length (heap s)
  = Some
      match PDFService.isValidPDF (Wiring.fs o 0%nat filePath) with
      | Fulfilled true =>
          match Wiring.fs o 1%nat filePath with
          | Rejected cause =>
              mkJob uuid filename failed now (Some (Wiring.time o 1))
                    (Some (js "Failed to extract text from PDF: "
                           ++ messageOf cause)) None None target
          | Fulfilled buf =>
              match Wiring.pdf o buf with
              | Rejected cause =>
                  mkJob uuid filename failed now (Some (Wiring.time o 1))
                        (Some (js "Failed to extract text from PDF: "
                               ++ messageOf cause)) None None target
              | Fulfilled data =>
                  let record :=
                    AIService.generateDemoData
                      (TextExtraction.cleanText (TextExtraction.text data)) in
                  match target with
                  | Some (c :: url) =>
                      mkJob uuid filename completed now (Some (Wiring.time o 3))
                            None (Some record) (Some (c :: url)) target
                  | _ =>
                      match encodeURIComponent (contractTitle record) with
                      | Some component =>
                          mkJob uuid filename completed now
                                (Some (Wiring.time o 3)) None (Some record)
                                (Some (ConfluenceService.demoUrlPrefix ++ component))
                                target
                      | None =>
                          mkJob uuid filename failed now (Some (Wiring.time o 3))
                                (Some (js "URI malformed")) None None target
                      end
                  end
              end
          end
      | _ =>
          mkJob uuid filename failed now (Some (Wiring.time o 0))
                (Some (js "Invalid PDF file")) None None target
      end.
Proof.
  intros P. unfold P. rewrite submitAndRun_job.
  cbn [Wiring.providers readFile extractText extractContractData
       createContractPage clock].
  destruct (PDFService.isValidPDF (Wiring.fs o 0%nat filePath)) as [[|]|e];
    try done.
  unfold TextExtraction.extractText.
  destruct (Wiring.fs o 1%nat filePath) as [buf|cause]; cbn [bind tryCatch]; [|done].
  destruct (Wiring.pdf o buf) as [data|cause]; cbn [bind tryCatch]; [|done].
  unfold AIService.extractContractData. cbn [tryCatch].
  unfold ConfluenceService.createContractPage. cbn [ConfluenceService.demoMode].
  destruct target as [[|c url]|]; cbn [truthy default]; try done;
    by destruct (encodeURIComponent _).
Qed.

End Composition.

(** ** The error handler of error.middleware.ts *)

Section ErrorHandler.
Import JS Http ErrorMiddleware.

(** X19. For an error that is neither a ZodError nor an AppError the status
    of [errorHandler] is decided, in every environment, by two markers in
    the message, 'File too large' first: 413 with the first, 400 with the
    second alone, 500 with neither. The body of the 500 response shows the
    message, as [details], in the development environment only: with any
    other value of NODE_ENV, or none, it is the fixed text alone. *)
Theorem errorHandler_plain_error maxFileSize nodeEnv (m : jsstring) :
  let r := errorHandler maxFileSize nodeEnv (PlainError m) in
  (statusCode r = 413 <-> includes m (js "File too large") = true) /\
  (statusCode r = 400 <-> includes m (js "File too large") = false
                          /\ includes m (js "Only PDF files are allowed") = true) /\
  (statusCode r = 500 <-> includes m (js "File too large") = false
                          /\ includes m (js "Only PDF files are allowed") = false) /\
  (statusCode r = 500 ->
   body r
   = Zod.VObject
       ((js "error", Zod.VString (js "Internal server error"))
        :: if bool_decide (nodeEnv = Some (js "development"))
           then [(js "details", Zod.VString m)] else [])).
Proof.
  intros r. subst r. unfold errorHandler.
  destruct (includes m (js "File too large")).
  - cbn [statusCode]. repeat split; try done; try discriminate; by intros [? ?].
  - destruct (includes m (js "Only PDF files are allowed")).
    + cbn [statusCode]. repeat split; try done; try discriminate; by intros [? ?].
    + cbn [statusCode body].
      repeat split; try done; try discriminate; try (by intros [? ?]).
      intros _. by destruct (bool_decide (nodeEnv = Some (js "development"))).
Qed.

Lemma errorHandler_plain_error_witness :
  statusCode (errorHandler None (Some (js "production"))
                (PlainError (js "connect ECONNREFUSED"))) = 500 /\
  body (errorHandler None (Some (js "production"))
          (PlainError (js "connect ECONNREFUSED")))
  = Zod.VObject [(js "error", Zod.VString (js "Internal server error"))].
Proof.
  destruct (errorHandler_plain_error None (Some (js "production"))
              (js "connect ECONNREFUSED")) as (_ & _ & H500 & Hbody).
  assert (statusCode (errorHandler None (Some (js "production"))
                        (PlainError (js "connect ECONNREFUSED"))) = 500) as Hst
    by (apply H500; split; reflexivity).
  split; [exact Hst|exact (Hbody Hst)].
Defined.

End ErrorHandler.

(** ** The schema of contract.types.ts *)

Section Schema.
Import JS Types Zod.

Lemma parse_object_cons k t rest P :
  parse (object ((k, t) :: rest)) (VObject P)
  = match parse t (prop P k), parse (object rest) (VObject P) with
    | Some v, Some (VObject out) =>
        Some (VObject (if negb (isUndefined v) || hasKey P k
                       then (k, v) :: out else out))
    | _, _ => None
    end.
Proof.
  cbn [parse].
  destruct (parse t (prop P k)) as [v|]; [|done].
  match goal with
  | |- context [match ?f rest with _ => _ end] => destruct (f rest) as [out|]
  end; [|done].
  cbn [mbind option_bind]. by destruct (negb (isUndefined v) || hasKey P k).
Qed.

Lemma parse_object_inv shape v out :
  parse (object shape) v = Some out ->
  exists P props, v = VObject P /\ out = VObject props.
Proof.
  destruct v as [| | | | | |?|P]; try done. intros H. exists P.
  cbn [parse] in H.
  match type of H with
  | ?f shape ≫= _ = _ => destruct (f shape) as [props|]; [|done]
  end.
  cbn [mbind option_bind] in H. exists props. split; [done|congruence].
Qed.

(** The keys of a parsed object are keys of the shape. *)
Lemma parse_object_keys shape P props k :
  parse (object shape) (VObject P) = Some (VObject props) ->
  hasKey props k = true -> exists t, (k, t) ∈ shape.
Proof.
  revert props. induction shape as [|[k' t'] rest IH]; intros props H Hk.
  - cbn in H. injection H as <-. done.
  - rewrite parse_object_cons in H.
    destruct (parse t' (prop P k')) as [v|]; [|done].
    destruct (parse (object rest) (VObject P)) as [[| | | | | |?|out]|] eqn:Hrest;
      try done.
    assert (hasKey ((k', v) :: out) k = true -> exists t, (k, t) ∈ (k', t') :: rest)
      as Hcons.
    { cbn [hasKey]. intros [Heq|Hout]%orb_true_iff.
      - apply str_eqb_eq in Heq as <-. exists t'. left.
      - destruct (IH out eq_refl Hout) as [t Ht]. exists t. by right. }
    destruct (negb (isUndefined v) || hasKey P k'); injection H as <-.
    + by apply Hcons.
    + destruct (IH out eq_refl Hk) as [t Ht]. exists t. by right.
Qed.

(** A field the validator of which refuses the value of the key fails the
    object. *)
Lemma parse_object_None shape P k t :
  (k, t) ∈ shape -> parse t (prop P k) = None ->
  parse (object shape) (VObject P) = None.
Proof.
  induction shape as [|[k' t'] rest IH]; intros Hin Hnone.
  - by apply elem_of_nil in Hin.
  - rewrite parse_object_cons. apply elem_of_cons in Hin as [[= <- <-]|Hin].
    + by rewrite Hnone.
    + rewrite (IH Hin Hnone). by destruct (parse t' (prop P k')).
Qed.

Lemma prop_absent P k : hasKey P k = false -> prop P k = VUndefined.
Proof.
  induction P as [|[k' v] P IH]; [done|]. cbn [hasKey prop].
  intros [Hne Hrest]%orb_false_iff. rewrite Hne. by apply IH.
Qed.

Lemma hasKey_prop P k : prop P k <> VUndefined -> hasKey P k = true.
Proof.
  intros H. destruct (hasKey P k) eqn:E; [done|]. by apply prop_absent in E.
Qed.

(** *** The segments of [toObject] *)

Lemma prop_field_skip {A} k' (enc : A -> value) a l k :
  str_eqb (js k') k = false -> prop (field k' enc a ++ l) k = prop l k.
Proof. intros H. cbn [field app prop]. by rewrite H. Qed.

Lemma prop_fieldOpt_skip {A} k' (enc : A -> value) a l k :
  str_eqb (js k') k = false -> prop (fieldOpt k' enc a ++ l) k = prop l k.
Proof. intros H. destruct a; cbn [fieldOpt app prop]; [by rewrite H|done]. Qed.

Lemma prop_field_hit {A} k (enc : A -> value) a l :
  prop (field k enc a ++ l) (js k) = enc a.
Proof. cbn [field app prop]. by rewrite str_eqb_refl. Qed.

Lemma prop_fieldOpt_hit {A} k (enc : A -> value) a l :
  prop (fieldOpt k enc a ++ l) (js k)
  = match a with Some x => enc x | None => prop l (js k) end.
Proof. destruct a; cbn [fieldOpt app prop]; [by rewrite str_eqb_refl|done]. Qed.

Lemma hasKey_field_skip {A} k' (enc : A -> value) a l k :
  str_eqb (js k') k = false -> hasKey (field k' enc a ++ l) k = hasKey l k.
Proof. intros H. cbn [field app hasKey]. by rewrite H. Qed.

Lemma hasKey_fieldOpt_skip {A} k' (enc : A -> value) a l k :
  str_eqb (js k') k = false -> hasKey (fieldOpt k' enc a ++ l) k = hasKey l k.
Proof. intros H. destruct a; cbn [fieldOpt app hasKey]; [by rewrite H|done]. Qed.

Lemma hasKey_fieldOpt_hit {A} k (enc : A -> value) a l :
  hasKey (fieldOpt k enc a ++ l) (js k)
  = match a with Some _ => true | None => hasKey l (js k) end.
Proof. destruct a; cbn [fieldOpt app hasKey]; [by rewrite str_eqb_refl|done]. Qed.

Lemma object_field {A} k (enc : A -> value) t rest P a out :
  prop P (js k) = enc a -> isUndefined (enc a) = false ->
  parse t (enc a) = Some (enc a) ->
  parse (object rest) (VObject P) = Some (VObject out) ->
  parse (object ((js k, t) :: rest)) (VObject P)
  = Some (VObject (field k enc a ++ out)).
Proof.
  intros Hp Hu Ht Hrest. rewrite parse_object_cons, Hp, Ht, Hrest, Hu. done.
Qed.

Lemma object_fieldOpt {A} k (enc : A -> value) t rest P a out :
  prop P (js k) = from_option enc VUndefined a ->
  hasKey P (js k) = bool_decide (is_Some a) ->
  (forall x, isUndefined (enc x) = false /\ parse t (enc x) = Some (enc x)) ->
  parse (object rest) (VObject P) = Some (VObject out) ->
  parse (object ((js k, optional t) :: rest)) (VObject P)
  = Some (VObject (fieldOpt k enc a ++ out)).
Proof.
  intros Hp Hk Henc Hrest. rewrite parse_object_cons, Hp, Hk, Hrest.
  destruct a as [x|]; cbn [from_option fieldOpt].
  - destruct (Henc x) as [Hu Ht].
    assert (parse (optional t) (enc x) = Some (enc x)) as ->.
    { revert Hu Ht. generalize (enc x). intros v Hu Ht. by destruct v. }
    by rewrite Hu.
  - done.
Qed.

Lemma parse_array {A} (enc : A -> value) t l :
  (forall x, parse t (enc x) = Some (enc x)) ->
  parse (array t) (VArray (enc <$> l)) = Some (VArray (enc <$> l)).
Proof.
  intros Henc. cbn [parse].
  assert (mapM (parse t) (enc <$> l) = Some (enc <$> l)) as ->; [|done].
  induction l as [|x l IH]; [done|].
  cbn [fmap list_fmap mapM]. rewrite Henc. cbn [mbind option_bind].
  cbn [fmap list_fmap] in IH. by rewrite IH.
Qed.

Lemma parse_strings l :
  parse (array string) (strings l) = Some (strings l).
Proof. by apply parse_array. Qed.

Lemma parse_party p :
  parse (object [(js "name", string);
                 (js "role", enum [js "provider"; js "recipient"; js "other"]);
                 (js "address", optional string)]) (partyObject p)
  = Some (partyObject p).
Proof. by destruct p as [n [] [a|]]. Qed.

Lemma parse_contractValue c :
  parse (object [(js "amount", optional number);
                 (js "currency", optional string)]) (contractValueObject c)
  = Some (contractValueObject c).
Proof. by destruct c as [[a|] [c|]]. Qed.

Lemma parse_obligation o :
  parse (object [(js "party", string); (js "description", string)])
        (obligationObject o)
  = Some (obligationObject o).
Proof. by destruct o. Qed.

Ltac skip_segments :=
  repeat first [ rewrite prop_field_skip by reflexivity
               | rewrite prop_fieldOpt_skip by reflexivity
               | rewrite hasKey_field_skip by reflexivity
               | rewrite hasKey_fieldOpt_skip by reflexivity ].

Ltac field_value :=
  skip_segments;
  first [ rewrite prop_field_hit; reflexivity
        | rewrite prop_fieldOpt_hit;
          match goal with
          | |- match ?a with _ => _ end = _ =>
              destruct a; [reflexivity | skip_segments; reflexivity]
          end ].

Ltac field_present :=
  skip_segments; rewrite hasKey_fieldOpt_hit;
  match goal with
  | |- match ?a with _ => _ end = _ =>
      destruct a; [reflexivity | skip_segments; reflexivity]
  end.

Ltac required_field :=
  apply object_field; [field_value | reflexivity | | ].

Ltac optional_field :=
  apply object_fieldOpt; [field_value | field_present | | ].

(** X20. Every object that [toObject] builds from a record validates
    against [ContractDataSchema], and the validated object is the record
    without its two free-text fields: [aiSummary] and [templateData], which
    ai.service.ts writes, are not keys of the schema and are stripped. The
    records are those of the embedding: the fields of the schema and the two
    free-text fields, optional fields present or missing, any strings and
    lists, and an amount that is an integer. The last point matters: NaN is
    a number of the static type [ContractData], and an object whose
    [contractValue.amount] is NaN does not validate. *)
Theorem typed_record_validates (d : ContractData) :
  (forall P worth,
      prop P (js "contractValue") = VObject worth ->
      prop worth (js "amount") = VNaN ->
      parse ContractDataSchema (VObject P) = None) /\
  parse ContractDataSchema (toObject d)
  = Some (toObject
            {| contractTitle := contractTitle d;
               contractNumber := contractNumber d;
               effectiveDate := effectiveDate d;
               expirationDate := expirationDate d;
               parties := parties d;
               contractValue := contractValue d;
               keyTerms := keyTerms d;
               obligations := obligations d;
               renewalTerms := renewalTerms d;
               terminationClauses := terminationClauses d;
               governingLaw := governingLaw d;
               specialProvisions := specialProvisions d;
               aiSummary := None;
               templateData := None |}).
Proof.
  split.
  { intros P cv Hcv Hamount.
    eapply (parse_object_None _ _ (js "contractValue"));
      [unfold ContractDataSchema;
       repeat (apply list_elem_of_here || apply list_elem_of_further)|].
    rewrite Hcv.
    change (parse (object [(js "amount", optional number);
                           (js "currency", optional string)]) (VObject cv)
            = None).
    apply (parse_object_None _ _ (js "amount") (optional number));
      [apply list_elem_of_here|by rewrite Hamount]. }
  destruct d as [title number effective expiration ps worth terms obls renewal
                   termination law special summary template].
  unfold toObject, ContractDataSchema.
  cbn [contractTitle contractNumber effectiveDate expirationDate parties
       contractValue keyTerms obligations renewalTerms terminationClauses
       governingLaw specialProvisions aiSummary templateData].
  rewrite <- (app_nil_r (fieldOpt "templateData" VString template)).
  change (fieldOpt "aiSummary" VString None ++ fieldOpt "templateData" VString None)
    with (@nil (jsstring * value)).
  required_field; [done|].
  optional_field; [done|].
  required_field; [done|].
  optional_field; [done|].
  required_field; [apply parse_array, parse_party|].
  optional_field; [intros c; split; [done|apply parse_contractValue]|].
  required_field; [apply parse_strings|].
  required_field; [apply parse_array, parse_obligation|].
  optional_field; [done|].
  optional_field; [intros l; split; [done|apply parse_strings]|].
  optional_field; [done|].
  optional_field; [intros l; split; [done|apply parse_strings]|].
  reflexivity.
Qed.

Lemma typed_record_validates_witness :
  parse ContractDataSchema
    (VObject [(js "contractTitle", VString (js "Lease"));
              (js "effectiveDate", VString (js "2025-01-01"));
              (js "parties", VArray []);
              (js "contractValue", VObject [(js "amount", VNaN)]);
              (js "keyTerms", VArray []);
              (js "obligations", VArray [])]) = None.
Proof.
  apply (proj1 (typed_record_validates (AIService.generateDemoData []))
           _ [(js "amount", VNaN)]); reflexivity.
Defined.

(** X21. Validation strips what the schema does not name: whatever value
    validates, the validated value is an object all keys of which are among
    the twelve keys of [ContractDataSchema]. So a record that went through
    the schema carries neither [aiSummary] nor [templateData]. *)
Theorem validated_object_has_schema_keys v out :
  parse ContractDataSchema v = Some out ->
  exists props,
    out = VObject props /\
    (forall k, hasKey props k = true ->
               k ∈ [js "contractTitle"; js "contractNumber"; js "effectiveDate";
                    js "expirationDate"; js "parties"; js "contractValue";
                    js "keyTerms"; js "obligations"; js "renewalTerms";
                    js "terminationClauses"; js "governingLaw";
                    js "specialProvisions"]) /\
    hasKey props (js "aiSummary") = false /\
    hasKey props (js "templateData") = false.
Proof.
  intros H. destruct (parse_object_inv _ _ _ H) as (P & props & -> & ->).
  exists props. split; [done|].
  assert (forall k, hasKey props k = true ->
            k ∈ [js "contractTitle"; js "contractNumber"; js "effectiveDate";
                 js "expirationDate"; js "parties"; js "contractValue";
                 js "keyTerms"; js "obligations"; js "renewalTerms";
                 js "terminationClauses"; js "governingLaw";
                 js "specialProvisions"]) as Hkeys.
  { intros k Hk. destruct (parse_object_keys _ _ _ _ H Hk) as [t Ht].
    exact (list_elem_of_fmap_2 fst _ _ Ht). }
  split; [done|].
  split.
  - destruct (hasKey props (js "aiSummary")) eqn:E; [|done].
    apply Hkeys in E. exfalso. revert E. vm_compute.
    intros E. repeat (apply elem_of_cons in E as [[=]|E]). by apply elem_of_nil in E.
  - destruct (hasKey props (js "templateData")) eqn:E; [|done].
    apply Hkeys in E. exfalso. revert E. vm_compute.
    intros E. repeat (apply elem_of_cons in E as [[=]|E]). by apply elem_of_nil in E.
Qed.

Lemma validated_object_has_schema_keys_witness :
  exists props,
    toObject (AIService.generateDemoData []) = VObject props /\
    Zod.parse ContractDataSchema (VObject props) <> None /\
    hasKey props (js "aiSummary") = true /\
    exists out,
      Zod.parse ContractDataSchema (VObject props) = Some (VObject out) /\
      hasKey out (js "aiSummary") = false.
Proof.
  eexists. split; [reflexivity|]. split; [by vm_compute|]. split; [by vm_compute|].
  destruct (Zod.parse ContractDataSchema (toObject (AIService.generateDemoData [])))
    as [out|] eqn:E; [|by vm_compute in E].
  destruct (validated_object_has_schema_keys _ out E) as (props & -> & _ & Hs & _).
  by exists props.
Defined.

(** X22. The five fields the schema does not mark optional are required: an
    object that lacks one of the keys [contractTitle], [effectiveDate],
    [parties], [keyTerms] and [obligations] does not validate, whatever else
    it holds; nor does a value that is not an object. *)
Theorem missing_required_field_fails v :
  (forall P, v = VObject P ->
     exists k, k ∈ [js "contractTitle"; js "effectiveDate"; js "parties";
                    js "keyTerms"; js "obligations"]
               /\ hasKey P k = false) ->
  parse ContractDataSchema v = None.
Proof.
  intros H. destruct v as [| | | | | |?|P]; try done.
  destruct (H P eq_refl) as (k & Hk & Habsent).
  apply prop_absent in Habsent.
  repeat (apply elem_of_cons in Hk as [->|Hk];
          [match type of Habsent with
           | prop _ ?k = _ => eapply (parse_object_None _ _ k)
           end;
           [unfold ContractDataSchema;
            repeat (apply list_elem_of_here || apply list_elem_of_further)
           |by rewrite Habsent]|]).
  by apply elem_of_nil in Hk.
Qed.

Lemma missing_required_field_fails_witness :
  parse ContractDataSchema
    (VObject [(js "contractTitle", VString (js "Lease"));
              (js "effectiveDate", VString (js "2025-01-01"));
              (js "parties", VArray []);
              (js "keyTerms", VArray [])]) = None.
Proof.
  apply missing_required_field_fails. intros P [= <-].
  exists (js "obligations"). split; [|reflexivity].
  repeat (apply list_elem_of_here || apply list_elem_of_further).
Defined.

End Schema.

(** ** The configuration of the Confluence service *)

Section Configuration.
Import JS Types ConfluenceService.

Lemma truthy_or_else a : truthy (Some (or_else a [])) = truthy a.
Proof. by destruct a as [[|c r]|]. Qed.

(** X23. A service constructed from an incomplete configuration sends
    nothing: [createContractPage] posts a page exactly when the base URL,
    the space key, the email and the token are all set and not empty, the
    base URL does not hold 'your-domain' and the email does not hold
    'your-email'; then the page goes to the configured space with the title
    of [buildPageTitle]. In every other case the call settles at once,
    without a request. *)
Theorem incomplete_configuration_posts_nothing env content d target :
  let complete :=
    truthy (CONFLUENCE_BASE_URL env) && truthy (CONFLUENCE_USER_EMAIL env)
    && truthy (CONFLUENCE_API_TOKEN env) && truthy (CONFLUENCE_SPACE_KEY env)
    && negb (includes (default [] (CONFLUENCE_BASE_URL env)) (js "your-domain"))
    && negb (includes (default [] (CONFLUENCE_USER_EMAIL env)) (js "your-email")) in
  match createContractPage (constructor env) content d target with
  | Settles _ => complete = false
  | Posts pageData _ =>
      complete = true /\
      Some (space pageData) = CONFLUENCE_SPACE_KEY env /\
      title pageData = buildPageTitle d
  end.
Proof.
  intros complete.
  assert (demoMode (constructor env) = negb complete) as Hmode.
  { subst complete. unfold constructor. cbn [demoMode].
    rewrite !truthy_or_else.
    destruct env as [[[|b0 base]|] [[|k0 key]|] parent [[|e0 email]|]
                       [[|t0 token]|]];
      cbn [CONFLUENCE_BASE_URL CONFLUENCE_SPACE_KEY CONFLUENCE_USER_EMAIL
           CONFLUENCE_API_TOKEN truthy negb orb andb or_else default
           from_option id];
      try reflexivity.
    change (Datatypes.id ?x) with x.
    by destruct (includes (b0 :: base) (js "your-domain")),
                (includes (e0 :: email) (js "your-email")). }
  unfold createContractPage. rewrite Hmode.
  destruct complete eqn:Hc; cbn [negb title space].
  - split; [done|]. split; [|done].
    unfold constructor. cbn [spaceKey].
    destruct (CONFLUENCE_SPACE_KEY env) as [[|k0 key]|] eqn:Hk; [| done |].
    + exfalso. revert Hc. cbn [truthy].
      by destruct (truthy (CONFLUENCE_BASE_URL env)),
                  (truthy (CONFLUENCE_USER_EMAIL env)),
                  (truthy (CONFLUENCE_API_TOKEN env)).
    + exfalso. revert Hc. cbn [truthy].
      by destruct (truthy (CONFLUENCE_BASE_URL env)),
                  (truthy (CONFLUENCE_USER_EMAIL env)),
                  (truthy (CONFLUENCE_API_TOKEN env)).
  - destruct (truthy target); [done|].
    by destruct (encodeURIComponent (contractTitle d)).
Qed.

End Configuration.

(** ** The names of the stored uploads *)

Section StoredNames.
Import JS ContractRoutes Path Storage.

Example extname_examples :
  extname (js "lease.pdf") = js ".pdf" /\
  extname (js "lease.v2.PDF") = js ".PDF" /\
  extname (js "lease") = [] /\
  extname (js ".env") = [] /\
  extname (js "..") = [] /\
  extname (js "lease.") = js "." /\
  extname (js "../../etc/passwd") = [] /\
  extname (js "a.b/c") = [] /\
  extname (js "dir/lease.pdf//") = js ".pdf" /\
  extname (js "x./../y") = [] /\
  extname [] = [].
Proof. vm_compute. repeat split. Qed.

Example numberToString_examples :
  numberToString 0 = js "0" /\
  numberToString 1762140000123 = js "1762140000123" /\
  numberToString (-5) = js "-5".
Proof. vm_compute. repeat split. Qed.

Ltac fields :=
  unfold scanned; cbn [startDot startPart end_ matchedSlash preDotState negb].

Lemma scan_scanned path n st :
  (n <= length path)%nat -> scanned path n st ->
  exists m, scanned path m (scan path n st).
Proof.
  revert st. induction n as [|i IH]; intros st Hn Hst; [by exists 0%nat|].
  cbn [scan].
  destruct (lookup_lt_is_Some_2 path i ltac:(lia)) as [c Hc].
  unfold jsstring in *. rewrite Hc. change (default 0 (Some c)) with c.
  destruct Hst as (Hm & He & Hd).
  destruct (Z.eqb_spec c 47) as [->|Hc47].
  - destruct (matchedSlash st) eqn:Em; cbn [negb].
    + apply IH; [lia|]. specialize (Hm eq_refl).
      split; [done|]. split; [done|]. intros Hs. by destruct (Hd Hs).
    + exists (S i). split; [cbn; congruence|split; [exact He|exact Hd]].
  - apply IH; [lia|].
    destruct (Z.eqb_spec (end_ st) (-1)) as [Ee|Ee].
    + assert (startDot st = -1) as Es.
      { destruct (Z.eq_dec (startDot st) (-1)); [done|]. by destruct (Hd n). }
      assert (forall j, (i <= j)%nat -> Z.of_nat j < Z.of_nat i + 1 ->
                        path !! j <> Some 47) as Hall'.
      { intros j Hj1 Hj2. assert (j = i) as -> by lia. rewrite Hc. by intros [=]. }
      destruct (Z.eqb_spec c 46) as [->|Hc46]; fields;
        (destruct (Z.eqb_spec (startDot st) (-1)) as [_|]; [|done]); fields;
        (split; [done|]); (split; [intros _; split; [lia|done]|]);
        first [done | intros _; rewrite Nat2Z.id; repeat split; (lia || done)].
    + destruct (He Ee) as (Hr & Hall).
      assert (forall j, (i <= j)%nat -> Z.of_nat j < end_ st ->
                        path !! j <> Some 47) as Hall'.
      { intros j Hj1 Hj2. destruct (decide (j = i)) as [->|].
        - rewrite Hc. by intros [=].
        - apply Hall; lia. }
      destruct (Z.eqb_spec c 46) as [->|Hc46].
      * destruct (Z.eqb_spec (startDot st) (-1)) as [Es|Es]; fields.
        -- split; [done|]. split; [intros _; split; [lia|done]|]. intros _.
           rewrite Nat2Z.id. repeat split; (lia || done).
        -- destruct (Hd Es) as (? & ? & ?).
           destruct (preDotState st =? 1); fields;
             (split; [done|]); (split; [intros _; split; [lia|done]|]);
             intros _; repeat split; (lia || done).
      * destruct (Z.eqb_spec (startDot st) (-1)) as [Es|Es]; fields.
        -- split; [done|]. split; [intros _; split; [lia|done]|]. done.
        -- destruct (Hd Es) as (? & ? & ?).
           split; [done|]. split; [intros _; split; [lia|done]|].
           intros _. repeat split; (lia || done).
Qed.

Lemma slice_units (s : jsstring) a b c :
  0 <= a -> 0 <= b -> c ∈ slice s a b ->
  exists j, Z.of_nat j < b /\ a <= Z.of_nat j /\ s !! j = Some c.
Proof.
  intros Ha Hb Hc. unfold slice in Hc.
  destruct (Z.ltb_spec a 0); [lia|]. destruct (Z.ltb_spec b 0); [lia|].
  apply list_elem_of_lookup in Hc as [k Hk].
  apply lookup_take_Some in Hk as [Hk Hlt].
  rewrite lookup_drop in Hk.
  exists (Z.to_nat (Z.min a (Z.of_nat (length s))) + k)%nat.
  apply lookup_lt_Some in Hk as Hlen.
  split; [lia|]. split; [lia|done].
Qed.

Lemma extname_units path c :
  c ∈ extname path -> c <> 47.
Proof.
  unfold extname.
  destruct (scan_scanned path (length path) (mkScan (-1) 0 (-1) true 0))
    as [m (Hm & He & Hd)]; [done|by cbn|].
  set (st := scan path (length path) (mkScan (-1) 0 (-1) true 0)) in *.
  destruct (Z.eqb_spec (startDot st) (-1)) as [|Es]; cbn [orb].
  { by intros ?%elem_of_nil. }
  destruct (Z.eqb_spec (end_ st) (-1)) as [|Ee]; cbn [orb].
  { by intros ?%elem_of_nil. }
  destruct (Hd Es) as (_ & Hrange & _). destruct (He Ee) as [Hr Hall].
  match goal with |- context [if ?b then _ else _] => destruct b end.
  { by intros ?%elem_of_nil. }
  intros (j & Hj1 & Hj2 & Hj)%slice_units; [|lia|lia].
  intros ->. apply (Hall j); [lia|lia|done].
Qed.

Lemma extname_shape path :
  extname path = [] \/ exists r, extname path = 46 :: r.
Proof.
  unfold extname.
  destruct (scan_scanned path (length path) (mkScan (-1) 0 (-1) true 0))
    as [m (Hm & He & Hd)]; [done|by cbn|].
  set (st := scan path (length path) (mkScan (-1) 0 (-1) true 0)) in *.
  destruct (Z.eqb_spec (startDot st) (-1)) as [|Es]; cbn [orb]; [by left|].
  destruct (Z.eqb_spec (end_ st) (-1)) as [|Ee]; cbn [orb]; [by left|].
  destruct (Hd Es) as (_ & Hrange & Hdot). destruct (He Ee) as [Hr Hall].
  match goal with |- context [if ?b then _ else _] => destruct b end; [by left|].
  right. unfold slice.
  destruct (Z.ltb_spec (startDot st) 0); [lia|].
  destruct (Z.ltb_spec (end_ st) 0); [lia|].
  rewrite !Z.min_l by lia.
  destruct (drop (Z.to_nat (startDot st)) path) as [|c r] eqn:Ed.
  - apply (f_equal length) in Ed. rewrite length_drop in Ed. simpl in Ed. lia.
  - assert (c = 46) as ->.
    { assert (path !! (Z.to_nat (startDot st) + 0)%nat = Some c) as Hc
        by (unfold jsstring in *; by rewrite <- (lookup_drop path), Ed).
      rewrite Nat.add_0_r in Hc. unfold jsstring in *. congruence. }
    destruct (Z.to_nat (end_ st - startDot st)) as [|k] eqn:Ek; [lia|].
    by eexists.
Qed.

Lemma digits_units d c : c ∈ digits d -> 48 <= c <= 57.
Proof.
  induction d; cbn [digits]; intros H;
    try (by apply elem_of_nil in H);
    apply elem_of_cons in H as [->|H]; (lia || by apply IHd).
Qed.

Lemma numberToString_units n c : c ∈ numberToString n -> c = 45 \/ 48 <= c <= 57.
Proof.
  unfold numberToString. destruct (Z.to_int n) as [d|d]; intros H.
  - right. by apply (digits_units d).
  - apply elem_of_cons in H as [->|H]; [by left|right; by apply (digits_units d)].
Qed.

(** X24. The name an upload is stored under never holds a path separator, so
    the file stays in the upload directory whatever name the client sent:
    the name is the field name, a hyphen, the digits of the time and of the
    random number, and the extension of the original name, which is empty
    or starts at a dot of the last component. *)
Theorem stored_name_has_no_separator now random file :
  47 ∉ fieldname file ->
(47 ∉ filename now random file) /\
  exists stamp,
    filename now random file
    = fieldname file ++ js "-" ++ stamp ++ extname (originalname file) /\
    (forall c, c ∈ stamp -> c = 45 \/ 48 <= c <= 57) /\
    (extname (originalname file) = []
     \/ exists r, extname (originalname file) = 46 :: r).
Proof.
  intros Hfield. split.
  - unfold filename. rewrite !elem_of_app.
    intros [H|[H|[[H|[H|H]]|H]]].
    + done.
    + vm_compute in H. by apply list_elem_of_singleton in H.
    + apply (numberToString_units now) in H. lia.
    + vm_compute in H. by apply list_elem_of_singleton in H.
    + apply (numberToString_units random) in H. lia.
    + by apply extname_units in H.
  - exists (numberToString now ++ js "-" ++ numberToString random).
    split; [unfold filename; by rewrite <- !app_assoc|]. split.
    + intros c. rewrite !elem_of_app. intros [H|[H|H]].
      * by apply (numberToString_units now).
      * vm_compute in H. apply list_elem_of_singleton in H. by left.
      * by apply (numberToString_units random).
    + apply extname_shape.
Qed.

Lemma stored_name_has_no_separator_witness :
  (47 ∉ js "contract") /\
  (47 ∉ filename 1762140000123 482913077
          (mkFilePart (js "contract") (js "../../etc/cron.d/lease.pdf")
                      (js "application/pdf") 2048)).
Proof.
  assert (47 ∉ js "contract") as Hfield.
  { vm_compute. intros H. repeat (apply elem_of_cons in H as [[=]|H]).
    by apply elem_of_nil in H. }
  split; [exact Hfield|].
  apply (stored_name_has_no_separator 1762140000123 482913077
           (mkFilePart (js "contract") (js "../../etc/cron.d/lease.pdf")
                       (js "application/pdf") 2048)).
  exact Hfield.
Defined.

End StoredNames.
